(** * Everest Meeting Meter: the simulation-and-accrual core

    A shallow embedding of [src/components/everest.tsx]: the oxygen and
    altitude toy model, the live cost, the pausable timer driven by
    [requestAnimationFrame], the note log, the time format and the scale of
    the Everest panel.

    Numbers.  A JavaScript [number] is modelled as a real number of the
    Standard Library: [+ - * /], [Math.max], [Math.min], [Math.floor] and
    [Math.log] are the exact real operations.  Rounding of IEEE doubles, [NaN]
    and the infinities are outside that model.  The oxygen reading is
    embedded a second time, in [Module Ieee], over the binary64 numbers that
    JavaScript computes with, where an overflowing product gives [NaN].

    Strings.  A JavaScript string is the list of its UTF-16 code units. *)

From Stdlib Require Import Reals Lra Lia ZArith NArith List Bool String Ascii.
From Stdlib Require Import Sorted DecimalN DecimalFacts.
From Stdlib Require Floats.
Import ListNotations.

Set Warnings "-inexact-float".

Open Scope R_scope.

(** ** JavaScript strings *)

Module JsString.

Definition codeUnit := N.
Definition t := list codeUnit.

(** A literal, written as a Rocq string of ASCII characters. *)
Fixpoint lit (s : string) : t :=
  match s with
  | EmptyString => []
  | String c s' => N_of_ascii c :: lit s'
  end.

(** [WhiteSpace] and [LineTerminator] of ECMAScript, the code units that
    [String.prototype.trim] strips. *)
Definition isWhiteSpace (c : codeUnit) : bool :=
  ((9 <=? c) && (c <=? 13) || (c =? 32) || (c =? 160) || (c =? 5760)
   || (8192 <=? c) && (c <=? 8202) || (c =? 8232) || (c =? 8233)
   || (c =? 8239) || (c =? 8287) || (c =? 12288) || (c =? 65279))%N.

Fixpoint trimStart (s : t) : t :=
  match s with
  | [] => []
  | c :: s' => if isWhiteSpace c then trimStart s' else s
  end.

Definition trimEnd (s : t) : t := rev (trimStart (rev s)).

(** [s.trim()] *)
Definition trim (s : t) : t := trimEnd (trimStart s).

(** Truthiness of a string: only the empty string is falsy. *)
Definition truthy (s : t) : bool :=
  match s with
  | [] => false
  | _ :: _ => true
  end.

(** [a || b] on strings. *)
Definition or (a b : t) : t := if truthy a then a else b.

(** The decimal digits of a natural number, most significant first. *)
Fixpoint digitsOfUint (d : Decimal.uint) : t :=
  match d with
  | Decimal.Nil => []
  | Decimal.D0 d' => 48%N :: digitsOfUint d'
  | Decimal.D1 d' => 49%N :: digitsOfUint d'
  | Decimal.D2 d' => 50%N :: digitsOfUint d'
  | Decimal.D3 d' => 51%N :: digitsOfUint d'
  | Decimal.D4 d' => 52%N :: digitsOfUint d'
  | Decimal.D5 d' => 53%N :: digitsOfUint d'
  | Decimal.D6 d' => 54%N :: digitsOfUint d'
  | Decimal.D7 d' => 55%N :: digitsOfUint d'
  | Decimal.D8 d' => 56%N :: digitsOfUint d'
  | Decimal.D9 d' => 57%N :: digitsOfUint d'
  end.

Definition decimal (n : N) : t := digitsOfUint (N.to_uint n).

(** [s.padStart(targetLength, padString)]: never shortens [s]; the filler is
    [padString] repeated and cut to the missing length. *)
Definition padStart (targetLength : nat) (padString s : t) : t :=
  if (targetLength <=? List.length s)%nat then s
  else
    match padString with
    | [] => s
    | _ :: _ =>
        let fillLen := (targetLength - List.length s)%nat in
        firstn fillLen (List.concat (repeat padString fillLen)) ++ s
    end.

(** [parts.join(sep)] *)
Fixpoint join (sep : t) (parts : list t) : t :=
  match parts with
  | [] => []
  | [x] => x
  | x :: rest => x ++ sep ++ join sep rest
  end.

End JsString.

(** ** Oxygen / altitude toy model *)

(** [equivalentAltitudeFromFraction(frac)] *)
Definition equivalentAltitudeFromFraction (frac : R) : R :=
  let f0 := 0.209 in
  if Rle_dec frac 0 then 8848
  else
    let ratio := frac / f0 in
    let h := -7000 * ln ratio in
    Rmax 0 (Rmin 8848 h).

(** The object argument of [computeO2Fraction]; [ceiling] and
    [perPersonO2Lpm] are optional and take their defaults when absent. *)
Record O2Args := mkO2Args {
  seconds : R;
  onsite : R;
  roomArea : R;
  ceiling : option R;
  perPersonO2Lpm : option R
}.

Record O2Reading := mkO2Reading {
  frac : R;
  percent : R;
  consumed_L : R;
  volume_L : R
}.

Definition orDefault (v : option R) (d : R) : R :=
  match v with
  | Some x => x
  | None => d
  end.

(** [computeO2Fraction({seconds, onsite, roomArea, ceiling = 3, perPersonO2Lpm = 0.6})] *)
Definition computeO2Fraction (a : O2Args) : O2Reading :=
  let ceiling := orDefault (ceiling a) 3 in
  let perPersonO2Lpm := orDefault (perPersonO2Lpm a) 0.6 in
  let volume_m3 := Rmax 1 (roomArea a * ceiling) in
  let volume_L := volume_m3 * 1000 in
  let f0 := 0.209 in
  let totalO2_L_initial := volume_L * f0 in
  let consumed := onsite a * perPersonO2Lpm * (seconds a / 60) in
  let remaining := Rmax 0 (totalO2_L_initial - consumed) in
  let frac := Rmax 0.01 (remaining / volume_L) in
  {| frac := Rmin f0 frac;
     percent := Rmin 20.9 (Rmin f0 frac * 100);
     consumed_L := Rmax 0 consumed;
     volume_L := volume_L |}.

(** ** The oxygen reading over IEEE doubles *)

Module Ieee.

Import PrimFloat.

(** [Math.max(a, b)]: [NaN] when an argument is [NaN]; [+0] counts as larger
    than [-0]. *)
Definition max (a b : float) : float :=
  if is_nan a || is_nan b then nan
  else if (a <? b)%float then b
  else if (b <? a)%float then a
  else if is_zero a && get_sign a then b
  else a.

(** [Math.min(a, b)] *)
Definition min (a b : float) : float :=
  if is_nan a || is_nan b then nan
  else if (a <? b)%float then a
  else if (b <? a)%float then b
  else if is_zero a && negb (get_sign a) then b
  else a.

Record O2Args := mkO2Args {
  seconds : float;
  onsite : float;
  roomArea : float;
  ceiling : option float;
  perPersonO2Lpm : option float
}.

Record O2Reading := mkO2Reading {
  frac : float;
  percent : float;
  consumed_L : float;
  volume_L : float
}.

Definition orDefault (v : option float) (d : float) : float :=
  match v with
  | Some x => x
  | None => d
  end.

(** [computeO2Fraction], operation by operation as the source, each one
    rounded as binary64 does. *)
Definition computeO2Fraction (a : O2Args) : O2Reading :=
  let ceiling := orDefault (ceiling a) 3%float in
  let perPersonO2Lpm := orDefault (perPersonO2Lpm a) 0.6%float in
  let volume_m3 := max 1%float (roomArea a * ceiling)%float in
  let volume_L := (volume_m3 * 1000)%float in
  let f0 := 0.209%float in
  let totalO2_L_initial := (volume_L * f0)%float in
  let consumed := (onsite a * perPersonO2Lpm * (seconds a / 60))%float in
  let remaining := max 0%float (totalO2_L_initial - consumed)%float in
  let frac := max 0.01%float (remaining / volume_L)%float in
  {| frac := min f0 frac;
     percent := min 20.9%float (min f0 frac * 100)%float;
     consumed_L := max 0%float consumed;
     volume_L := volume_L |}.


End Ieee.

(** ** The component [EverestMeetingMeter] *)

(** [type Note = { id: string; ts: number; topic: string; text: string }] *)
Record Note := mkNote {
  id : JsString.t;
  ts : R;
  note_topic : JsString.t;
  text : JsString.t
}.

(** The hooks of the component: one field per [useState], and the
    [lastTickRef] of [useRef<number | null>(null)]. *)
Record State := mkState {
  numOnsite : R;
  numRemote : R;
  st_roomArea : R;
  hourlyCostPerPerson : R;
  currency : JsString.t;
  o2Lpm : R;
  isRunning : bool;
  elapsed : R;
  lastTickRef : option R;
  topic : JsString.t;
  note : JsString.t;
  notes : list Note
}.

(** The state at mount.  The timer effect has run once with
    [isRunning = false], which leaves [lastTickRef.current = null]. *)
Definition initialState : State :=
  {| numOnsite := 4;
     numRemote := 2;
     st_roomArea := 30;
     hourlyCostPerPerson := 80;
     currency := JsString.lit "CHF";
     o2Lpm := 0.6;
     isRunning := false;
     elapsed := 0;
     lastTickRef := None;
     topic := [];
     note := [];
     notes := [] |}.

(** *** State setters *)

Definition setNumOnsite (v : R) (st : State) : State :=
  mkState v (numRemote st) (st_roomArea st) (hourlyCostPerPerson st)
    (currency st) (o2Lpm st) (isRunning st) (elapsed st) (lastTickRef st)
    (topic st) (note st) (notes st).

Definition setNumRemote (v : R) (st : State) : State :=
  mkState (numOnsite st) v (st_roomArea st) (hourlyCostPerPerson st)
    (currency st) (o2Lpm st) (isRunning st) (elapsed st) (lastTickRef st)
    (topic st) (note st) (notes st).

Definition setRoomArea (v : R) (st : State) : State :=
  mkState (numOnsite st) (numRemote st) v (hourlyCostPerPerson st)
    (currency st) (o2Lpm st) (isRunning st) (elapsed st) (lastTickRef st)
    (topic st) (note st) (notes st).

Definition setHourlyCostPerPerson (v : R) (st : State) : State :=
  mkState (numOnsite st) (numRemote st) (st_roomArea st) v
    (currency st) (o2Lpm st) (isRunning st) (elapsed st) (lastTickRef st)
    (topic st) (note st) (notes st).

Definition setCurrency (v : JsString.t) (st : State) : State :=
  mkState (numOnsite st) (numRemote st) (st_roomArea st)
    (hourlyCostPerPerson st) v (o2Lpm st) (isRunning st) (elapsed st)
    (lastTickRef st) (topic st) (note st) (notes st).

Definition setO2Lpm (v : R) (st : State) : State :=
  mkState (numOnsite st) (numRemote st) (st_roomArea st)
    (hourlyCostPerPerson st) (currency st) v (isRunning st) (elapsed st)
    (lastTickRef st) (topic st) (note st) (notes st).

(** The bare write of the [isRunning] hook; the effect that depends on it is
    [setIsRunning] below. *)
Definition writeIsRunning (v : bool) (st : State) : State :=
  mkState (numOnsite st) (numRemote st) (st_roomArea st)
    (hourlyCostPerPerson st) (currency st) (o2Lpm st) v (elapsed st)
    (lastTickRef st) (topic st) (note st) (notes st).

Definition setElapsed (v : R) (st : State) : State :=
  mkState (numOnsite st) (numRemote st) (st_roomArea st)
    (hourlyCostPerPerson st) (currency st) (o2Lpm st) (isRunning st) v
    (lastTickRef st) (topic st) (note st) (notes st).

Definition setLastTickRef (v : option R) (st : State) : State :=
  mkState (numOnsite st) (numRemote st) (st_roomArea st)
    (hourlyCostPerPerson st) (currency st) (o2Lpm st) (isRunning st)
    (elapsed st) v (topic st) (note st) (notes st).

Definition setTopic (v : JsString.t) (st : State) : State :=
  mkState (numOnsite st) (numRemote st) (st_roomArea st)
    (hourlyCostPerPerson st) (currency st) (o2Lpm st) (isRunning st)
    (elapsed st) (lastTickRef st) v (note st) (notes st).

Definition setNote (v : JsString.t) (st : State) : State :=
  mkState (numOnsite st) (numRemote st) (st_roomArea st)
    (hourlyCostPerPerson st) (currency st) (o2Lpm st) (isRunning st)
    (elapsed st) (lastTickRef st) (topic st) v (notes st).

Definition setNotes (v : list Note) (st : State) : State :=
  mkState (numOnsite st) (numRemote st) (st_roomArea st)
    (hourlyCostPerPerson st) (currency st) (o2Lpm st) (isRunning st)
    (elapsed st) (lastTickRef st) (topic st) (note st) v.

(** *** Timer *)

(** The body of the timer effect, up to the registration of the frame
    callback: [if (!isRunning) { lastTickRef.current = null; return; }].
    When [isRunning] holds the effect only arms the frame loop; the loop is
    armed exactly while [isRunning] holds (the cleanup cancels it), which is
    how [step] below delivers frames. *)
Definition timerEffect (st : State) : State :=
  if isRunning st then st else setLastTickRef None st.

(** [setIsRunning(v)] followed by the render it causes: the effect has
    [[isRunning]] as its dependencies, so it runs again only when the value
    changed. *)
Definition setIsRunning (v : bool) (st : State) : State :=
  if Bool.eqb (isRunning st) v then writeIsRunning v st
  else timerEffect (writeIsRunning v st).

(** One call of the frame callback [raf] with [performance.now() = now]. *)
Definition raf (now : R) (st : State) : State :=
  let last := match lastTickRef st with
              | None => now
              | Some l => l
              end in
  let dt := (now - last) / 1000 in
  if Rle_dec 0.05 dt
  then setLastTickRef (Some now) (setElapsed (elapsed st + dt) st)
  else setLastTickRef (Some last) st.

(** *** Derived values *)

Definition floor (x : R) : R := IZR (Zfloor x).

Definition st_onsite (st : State) : R := Rmax 0 (floor (numOnsite st)).
Definition remote (st : State) : R := Rmax 0 (floor (numRemote st)).
Definition participants (st : State) : R := st_onsite st + remote st.

Definition o2 (st : State) : O2Reading :=
  computeO2Fraction
    {| seconds := elapsed st;
       onsite := st_onsite st;
       roomArea := st_roomArea st;
       ceiling := None;
       perPersonO2Lpm := Some (o2Lpm st) |}.

Definition eqAlt (st : State) : R := equivalentAltitudeFromFraction (frac (o2 st)).

Definition costPerSecondPerPerson (st : State) : R := hourlyCostPerPerson st / 3600.
Definition liveCost (st : State) : R :=
  participants st * costPerSecondPerPerson st * elapsed st.

(** *** Notes *)

Definition untitled : JsString.t := JsString.lit "(untitled)".

(** [addNote()], with [newId] the value that the call of [uuid()] returns. *)
Definition addNote (newId : JsString.t) (st : State) : State :=
  let t := JsString.trim (topic st) in
  let n := JsString.trim (note st) in
  if negb (JsString.truthy t) && negb (JsString.truthy n) then st
  else
    setNote []
      (setNotes
         ({| id := newId; ts := elapsed st;
             note_topic := JsString.or t untitled; text := n |} :: notes st)
         st).

(** *** User intents and frames *)

Inductive Event :=
| SetNumOnsite (v : R)
| SetNumRemote (v : R)
| SetRoomArea (v : R)
| SetO2Lpm (v : R)
| SetHourlyCostPerPerson (v : R)
| SetCurrency (v : JsString.t)
| ToggleRunning
| Reset
| Frame (now : R)
| SetTopic (v : JsString.t)
| SetNote (v : JsString.t)
| AddNote (newId : JsString.t)
| ClearNotes.

(** The [onClick] of the Reset button. *)
Definition reset (st : State) : State := setElapsed 0 (setIsRunning false st).

(** The [onClick] of the Start / Pause / Resume button. *)
Definition toggleRunning (st : State) : State :=
  setIsRunning (negb (isRunning st)) st.

Definition step (st : State) (e : Event) : State :=
  match e with
  | SetNumOnsite v => setNumOnsite v st
  | SetNumRemote v => setNumRemote v st
  | SetRoomArea v => setRoomArea v st
  | SetO2Lpm v => setO2Lpm v st
  | SetHourlyCostPerPerson v => setHourlyCostPerPerson v st
  | SetCurrency v => setCurrency (JsString.or v (JsString.lit "CHF")) st
  | ToggleRunning => toggleRunning st
  | Reset => reset st
  | Frame now => if isRunning st then raf now st else st
  | SetTopic v => setTopic v st
  | SetNote v => setNote v st
  | AddNote newId => addNote newId st
  | ClearNotes => setNotes [] st
  end.

Definition run (st : State) (evs : list Event) : State := fold_left step evs st.

(** The events that reach the timer: the two buttons and the frames. *)
Definition isClockEvent (e : Event) : bool :=
  match e with
  | ToggleRunning | Reset | Frame _ => true
  | _ => false
  end.

(** *** Time formatting *)

(** Truncation towards zero, the quotient of the JavaScript [%]. *)
Definition trunc (x : R) : Z :=
  if Rle_dec 0 x then Zfloor x else (- Zfloor (- x))%Z.

(** [x % y] on numbers, for a divisor that is not 0. *)
Definition jsRem (x y : R) : R := x - y * IZR (trunc (x / y)).

Section TimeFormat.

(** [String(v)] prints an integer below 10^21 in magnitude with its decimal
    digits; from 10^21 on JavaScript switches to the exponent notation,
    which is left as a parameter. *)
Variable exponentForm : Z -> JsString.t.

Definition numberToString (v : Z) : JsString.t :=
  if (Z.abs v <? 10 ^ 21)%Z then
    if (v <? 0)%Z then 45%N :: JsString.decimal (Z.to_N (- v))
    else JsString.decimal (Z.to_N v)
  else exponentForm v.

(** [fmtTime(s)] *)
Definition fmtTime (s : R) : JsString.t :=
  let h := Zfloor (s / 3600) in
  let m := Zfloor (jsRem s 3600 / 60) in
  let sec := Zfloor (jsRem s 60) in
  JsString.join (JsString.lit ":")
    (map (fun v => JsString.padStart 2 (JsString.lit "0") (numberToString v))
       [h; m; sec]).

End TimeFormat.

(** The fraction at which the equivalent altitude reaches the summit: below
    it the upper clamp of [equivalentAltitudeFromFraction] cuts. *)
Definition summitFraction : R := 0.209 * exp (- (8848 / 7000)).

(** The two decimal digits of an integer from 0 to 99, tens first: what a
    two-digit field of a clock shows. *)
Definition twoDigits (z : Z) : JsString.t :=
  [Z.to_N (48 + z / 10); Z.to_N (48 + z mod 10)].

(** Equality of two strings, code unit by code unit. *)
Definition sameString (a b : JsString.t) : bool :=
  if list_eq_dec N.eq_dec a b then true else false.

(** A time of [F] whole seconds laid out as a clock: hours (two characters
    or more), minutes and seconds. *)
Definition clock (exponentForm : Z -> JsString.t) (F : Z) : JsString.t :=
  JsString.padStart 2 (JsString.lit "0")
    (numberToString exponentForm (F / 3600))
  ++ JsString.lit ":" ++ twoDigits ((F / 60) mod 60)
  ++ JsString.lit ":" ++ twoDigits (F mod 60).

(** *** The Everest panel *)

(** [pct] of [EverestPanel]: the share of the summit height. *)
Definition pct (altitudeM : R) : R :=
  let maxH := 8848 in
  Rmin 1 (Rmax 0 (altitudeM / maxH)).

(** The [y] of the climbing marker, 380 at the base of the drawing. *)
Definition markerY (altitudeM : R) : R := 380 - pct altitudeM * 380.

(** [Math.round(x)]: the nearest integer, halves upwards. *)
Definition round (x : R) : Z := Zfloor (x + 0.5).

(** The [y] and the label of the altitude tick [i], for [i] from 0 to 9. *)
Definition tickY (i : nat) : R := 380 - INR i * (380 / 9).
Definition tickAlt (i : nat) : Z := round (INR i * (8848 / 9)).

(** *** The Start / Pause / Resume button *)

(** [isRunning ? "Pause" : elapsed > 0 ? "Resume" : "Start"] *)
Definition buttonLabel (st : State) : JsString.t :=
  if isRunning st then JsString.lit "Pause"
  else if Rlt_dec 0 (elapsed st) then JsString.lit "Resume"
  else JsString.lit "Start".

(** *** Event sequences *)

(** The wall-clock samples of the frames of a sequence, in order. *)
Fixpoint frameTimes (evs : list Event) : list R :=
  match evs with
  | [] => []
  | Frame now :: rest => now :: frameTimes rest
  | _ :: rest => frameTimes rest
  end.

(** The identifiers that [uuid()] returned to the [addNote] calls of a
    sequence, in order. *)
Fixpoint addedIds (evs : list Event) : list JsString.t :=
  match evs with
  | [] => []
  | AddNote newId :: rest => newId :: addedIds rest
  | _ :: rest => addedIds rest
  end.

(** The edits of the inputs that the oxygen reading and the cost read. *)
Definition isParamEdit (e : Event) : bool :=
  match e with
  | SetNumOnsite _ | SetNumRemote _ | SetRoomArea _ | SetO2Lpm _
  | SetHourlyCostPerPerson _ => true
  | _ => false
  end.

(** While the clock is stopped no last sample is kept: the effect clears
    [lastTickRef] whenever [isRunning] turns false. *)
Definition stoppedClean (st : State) : Prop :=
  isRunning st = false -> lastTickRef st = None.

(** ** Facts about [Rmax], [Rmin] and division used below *)

Ltac maxmin :=
  unfold Rmax, Rmin in *;
  repeat match goal with
         | |- context [Rle_dec ?a ?b] => destruct (Rle_dec a b)
         | H : context [Rle_dec ?a ?b] |- _ => destruct (Rle_dec a b)
         end;
  try lra.

Lemma clamp_range (lo hi x : R) : lo <= hi -> lo <= Rmin hi (Rmax lo x) <= hi.
Proof. intros; maxmin. Qed.

Lemma clamp_mono (lo hi x y : R) :
  x <= y -> Rmin hi (Rmax lo x) <= Rmin hi (Rmax lo y).
Proof. intros; maxmin. Qed.

Lemma div_le_mono (x y v : R) : 0 < v -> x <= y -> x / v <= y / v.
Proof.
  intros Hv Hxy. unfold Rdiv.
  apply Rmult_le_compat_r; [left; now apply Rinv_0_lt_compat | exact Hxy].
Qed.

Lemma div_ge_bound (x v k : R) : 0 < v -> k * v <= x -> k <= x / v.
Proof.
  intros Hv H.
  replace k with (k * v / v) by (field; lra).
  now apply div_le_mono.
Qed.

Lemma volume_pos (a c : R) : 0 < Rmax 1 (a * c) * 1000.
Proof. assert (1 <= Rmax 1 (a * c)) by apply Rmax_l. lra. Qed.

(** ** Oxygen model *)

Section OxygenFraction.

Variables (onsite0 roomArea0 : R) (ceiling0 perPersonO2Lpm0 : option R).

Lemma frac_range (s : R) :
  0.01
  <= frac (computeO2Fraction
             (mkO2Args s onsite0 roomArea0 ceiling0 perPersonO2Lpm0))
  <= 0.209.
Proof.
  unfold computeO2Fraction; cbn [frac].
  apply clamp_range; lra.
Qed.

(** A reading whose consumption is not positive is still at the initial
    fraction. *)
Lemma frac_no_consumption (s : R) :
  onsite0 * orDefault perPersonO2Lpm0 0.6 * (s / 60) <= 0 ->
  frac (computeO2Fraction
          (mkO2Args s onsite0 roomArea0 ceiling0 perPersonO2Lpm0))
  = 0.209.
Proof.
  intros Hc.
  unfold computeO2Fraction;
    cbn [frac seconds onsite roomArea ceiling perPersonO2Lpm].
  set (v := Rmax 1 (roomArea0 * orDefault ceiling0 3) * 1000).
  assert (Hv : 0 < v) by apply volume_pos.
  set (c := onsite0 * orDefault perPersonO2Lpm0 0.6 * (s / 60)) in *.
  assert (Hr : 0.209 <= Rmax 0 (v * 0.209 - c) / v).
  { apply div_ge_bound; [exact Hv |].
    apply Rle_trans with (v * 0.209 - c); [lra | apply Rmax_r]. }
  maxmin.
Qed.

Lemma frac_antitone (s1 s2 : R) :
  0 <= s1 -> 0 <= onsite0 -> s1 <= s2 ->
  frac (computeO2Fraction
          (mkO2Args s2 onsite0 roomArea0 ceiling0 perPersonO2Lpm0))
  <= frac (computeO2Fraction
             (mkO2Args s1 onsite0 roomArea0 ceiling0 perPersonO2Lpm0)).
Proof.
  intros Hs Ho Hle.
  destruct (Rle_dec 0 (orDefault perPersonO2Lpm0 0.6)) as [Hp | Hp].
  - unfold computeO2Fraction;
      cbn [frac seconds onsite roomArea ceiling perPersonO2Lpm].
    set (v := Rmax 1 (roomArea0 * orDefault ceiling0 3) * 1000).
    assert (Hv : 0 < v) by apply volume_pos.
    apply clamp_mono, div_le_mono; [exact Hv |].
    assert (Hc : onsite0 * orDefault perPersonO2Lpm0 0.6 * (s1 / 60)
                 <= onsite0 * orDefault perPersonO2Lpm0 0.6 * (s2 / 60)).
    { apply Rmult_le_compat_l; [now apply Rmult_le_pos | lra]. }
    maxmin.
  - assert (Hneg : forall s, 0 <= s ->
              onsite0 * orDefault perPersonO2Lpm0 0.6 * (s / 60) <= 0).
    { intros s H0.
      replace (onsite0 * orDefault perPersonO2Lpm0 0.6 * (s / 60))
        with (- ((onsite0 * (s / 60)) * - orDefault perPersonO2Lpm0 0.6))
        by ring.
      assert (0 <= (onsite0 * (s / 60)) * - orDefault perPersonO2Lpm0 0.6).
      { apply Rmult_le_pos; [apply Rmult_le_pos |]; lra. }
      lra. }
    rewrite (frac_no_consumption s1), (frac_no_consumption s2);
      [lra | apply Hneg; lra | apply Hneg; lra].
Qed.

End OxygenFraction.

(** *** The clamps over doubles *)

Section Doubles.

Import PrimFloat.











End Doubles.

(** The scenario of the specification, step by step. *)
Lemma scenario_reading :
  computeO2Fraction (mkO2Args 600 4 30 (Some 3) (Some 0.6))
  = mkO2Reading (18786 / 90000) (18786 / 900) 24 90000.
Proof.
  unfold computeO2Fraction;
    cbn [seconds onsite roomArea ceiling perPersonO2Lpm orDefault].
  assert (Hvol : Rmax 1 (30 * 3) * 1000 = 90000) by maxmin.
  rewrite Hvol.
  replace (90000 * 0.209 - 4 * 0.6 * (600 / 60)) with 18786 by lra.
  replace (4 * 0.6 * (600 / 60)) with 24 by lra.
  assert (Hrem : Rmax 0 18786 = 18786) by maxmin.
  rewrite Hrem.
  assert (Hfrac : Rmin 0.209 (Rmax 0.01 (18786 / 90000)) = 18786 / 90000)
    by maxmin.
  rewrite Hfrac.
  f_equal; maxmin.
Qed.

(** C8. With [roomAreaM2 = 30], [ceilingHeightM = 3], [onsitePeople = 4],
    [o2ConsumptionLpm = 0.6] and [elapsedSeconds = 600], [computeO2Fraction]
    returns a room volume of 90000 litres, 24 litres consumed, the fraction
    18786/90000 (about 0.2087, below 0.209, so the upper clamp does not
    trigger) and a percentage of about 20.87.  The default ceiling gives the
    same reading. *)
Theorem computeO2Fraction_scenario :
  let r := computeO2Fraction (mkO2Args 600 4 30 (Some 3) (Some 0.6)) in
  volume_L r = 90000 /\
  consumed_L r = 24 /\
  frac r = 18786 / 90000 /\
  0.2087 < frac r < 0.2088 /\
  frac r < 0.209 /\
  20.87 < percent r < 20.88 /\
  computeO2Fraction (mkO2Args 600 4 30 None (Some 0.6)) = r.
Proof.
  cbv zeta. rewrite scenario_reading. cbn [volume_L consumed_L frac percent].
  repeat split; try lra.
  rewrite <- scenario_reading. reflexivity.
Qed.

(** ** Altitude mapping *)

Lemma ln_monotone (x y : R) : 0 < x -> x <= y -> ln x <= ln y.
Proof.
  intros Hx [Hlt | Heq].
  - left. now apply ln_increasing.
  - subst. right. reflexivity.
Qed.

Lemma ratio_pos (f : R) : 0 < f -> 0 < f / 0.209.
Proof. intros Hf. apply Rdiv_lt_0_compat; lra. Qed.

Lemma altitude_range (f : R) : 0 <= equivalentAltitudeFromFraction f <= 8848.
Proof.
  unfold equivalentAltitudeFromFraction.
  destruct (Rle_dec f 0); [lra |].
  generalize (-7000 * ln (f / 0.209)). intros h. maxmin.
Qed.

Lemma altitude_nonpositive (f : R) :
  f <= 0 -> equivalentAltitudeFromFraction f = 8848.
Proof.
  intros Hf. unfold equivalentAltitudeFromFraction.
  destruct (Rle_dec f 0); [reflexivity | lra].
Qed.

Lemma altitude_sea_level (f : R) :
  0.209 <= f -> equivalentAltitudeFromFraction f = 0.
Proof.
  intros Hf. unfold equivalentAltitudeFromFraction.
  destruct (Rle_dec f 0); [lra |].
  assert (Hln : ln 1 <= ln (f / 0.209)).
  { apply ln_monotone; [lra |]. apply div_ge_bound; lra. }
  rewrite ln_1 in Hln.
  maxmin.
Qed.

Lemma altitude_antitone (f1 f2 : R) :
  f1 <= f2 ->
  equivalentAltitudeFromFraction f2 <= equivalentAltitudeFromFraction f1.
Proof.
  intros Hle.
  destruct (Rle_dec f1 0) as [H1 | H1].
  - rewrite (altitude_nonpositive f1 H1). apply altitude_range.
  - unfold equivalentAltitudeFromFraction.
    destruct (Rle_dec f1 0); [lra |].
    destruct (Rle_dec f2 0); [lra |].
    assert (Hln : ln (f1 / 0.209) <= ln (f2 / 0.209)).
    { apply ln_monotone; [apply ratio_pos; lra |].
      apply div_le_mono; lra. }
    maxmin.
Qed.

Lemma exp_2_le_9 : exp 2 <= 9.
Proof.
  replace 2 with (1 + 1) by ring. rewrite exp_plus.
  pose proof exp_le_3 as H3. pose proof (exp_pos 1) as Hpos.
  replace 9 with (3 * 3) by ring.
  apply Rmult_le_compat; lra.
Qed.

(** A fraction of at most 0.02 (the floor 0.01 of the reading included) is
    shown at the summit. *)
Lemma altitude_summit (f : R) :
  f <= 0.02 -> equivalentAltitudeFromFraction f = 8848.
Proof.
  intros Hf.
  destruct (Rle_dec f 0) as [H0 | H0]; [now apply altitude_nonpositive |].
  unfold equivalentAltitudeFromFraction.
  destruct (Rle_dec f 0); [contradiction |].
  assert (Hln : ln (f / 0.209) <= -2).
  { replace (-2) with (Ropp 2) by lra.
    rewrite <- (ln_exp (Ropp 2)).
    apply ln_monotone; [apply ratio_pos; lra |].
    rewrite exp_Ropp.
    pose proof exp_2_le_9 as H9. pose proof (exp_pos 2) as Hpos.
    apply Rle_trans with (/ 9).
    - apply Rle_trans with (0.02 / 0.209); [apply div_le_mono; lra | lra].
    - apply Rinv_le_contravar; assumption. }
  maxmin.
Qed.

Lemma summitFraction_bounds : 0.02 < summitFraction < 0.105.
Proof.
  unfold summitFraction.
  assert (Hup : exp (- (8848 / 7000)) < / 2).
  { apply Rlt_trans with (exp (Ropp 1)); [apply exp_increasing; lra |].
    rewrite exp_Ropp. apply Rinv_lt_contravar.
    - pose proof (exp_pos 1). lra.
    - pose proof (exp_ineq1 1 ltac:(lra)). lra. }
  assert (Hlow : / 9 < exp (- (8848 / 7000))).
  { apply Rle_lt_trans with (exp (Ropp 2)); [| apply exp_increasing; lra].
    rewrite exp_Ropp. apply Rinv_le_contravar; [apply exp_pos |].
    exact exp_2_le_9. }
  lra.
Qed.

Lemma altitude_at_summit (f : R) :
  f <= summitFraction -> equivalentAltitudeFromFraction f = 8848.
Proof.
  intros Hf.
  destruct (Rle_dec f 0) as [H0 | H0]; [now apply altitude_nonpositive |].
  unfold equivalentAltitudeFromFraction.
  destruct (Rle_dec f 0); [contradiction |].
  assert (Hln : ln (f / 0.209) <= - (8848 / 7000)).
  { rewrite <- (ln_exp (- (8848 / 7000))).
    apply ln_monotone; [apply ratio_pos; lra |].
    replace (exp (- (8848 / 7000))) with (summitFraction / 0.209)
      by (unfold summitFraction; field_simplify; lra).
    apply div_le_mono; lra. }
  maxmin.
Qed.

(** Between the clamps the altitude is the logarithm itself. *)
Lemma altitude_between (f : R) :
  summitFraction <= f <= 0.209 ->
  equivalentAltitudeFromFraction f = -7000 * ln (f / 0.209).
Proof.
  intros [Hlo Hhi].
  pose proof summitFraction_bounds as [Hpos _].
  unfold equivalentAltitudeFromFraction.
  destruct (Rle_dec f 0); [lra |].
  assert (Hge : - (8848 / 7000) <= ln (f / 0.209)).
  { rewrite <- (ln_exp (- (8848 / 7000))).
    apply ln_monotone; [apply exp_pos |].
    replace (exp (- (8848 / 7000))) with (summitFraction / 0.209)
      by (unfold summitFraction; field_simplify; lra).
    apply div_le_mono; lra. }
  assert (Hle : ln (f / 0.209) <= 0).
  { rewrite <- ln_1. apply ln_monotone; [apply ratio_pos; lra |].
    replace 1 with (0.209 / 0.209) by lra. apply div_le_mono; lra. }
  maxmin.
Qed.

Lemma altitude_strict (f1 f2 : R) :
  summitFraction <= f1 -> f1 < f2 -> f2 <= 0.209 ->
  equivalentAltitudeFromFraction f2 < equivalentAltitudeFromFraction f1.
Proof.
  intros H1 H12 H2.
  pose proof summitFraction_bounds as [Hpos _].
  rewrite !altitude_between by lra.
  assert (Hln : ln (f1 / 0.209) < ln (f2 / 0.209)).
  { apply ln_increasing; [apply ratio_pos; lra |].
    unfold Rdiv. apply Rmult_lt_compat_r; [| exact H12].
    apply Rinv_0_lt_compat. lra. }
  lra.
Qed.

(** C2, as the code has it. [equivalentAltitudeFromFraction] lies in
    [0, 8848] for every real fraction and does not increase when the
    fraction increases.  It is 8848 whenever the fraction is at most
    [summitFraction], 0.209 times e to the power -8848/7000, about 0.059
    (so whenever it is at most 0); it is 0 from the initial fraction 0.209
    upwards; in between it is -7000 times the logarithm of the fraction over
    0.209, and there it is strictly decreasing.  It is not strictly
    decreasing everywhere: the clamps make it constant at both ends. *)
Theorem equivalentAltitude_range_antitone (f1 f2 : R) :
  0 <= equivalentAltitudeFromFraction f1 <= 8848 /\
  (f1 <= 0 -> equivalentAltitudeFromFraction f1 = 8848) /\
  (0.209 <= f1 -> equivalentAltitudeFromFraction f1 = 0) /\
  (f1 <= f2 ->
   equivalentAltitudeFromFraction f2 <= equivalentAltitudeFromFraction f1) /\
  0.02 < summitFraction < 0.105 /\
  (f1 <= summitFraction -> equivalentAltitudeFromFraction f1 = 8848) /\
  (summitFraction <= f1 <= 0.209 ->
   equivalentAltitudeFromFraction f1 = -7000 * ln (f1 / 0.209)) /\
  (summitFraction <= f1 -> f1 < f2 -> f2 <= 0.209 ->
   equivalentAltitudeFromFraction f2 < equivalentAltitudeFromFraction f1).
Proof.
  split; [apply altitude_range |].
  split; [apply altitude_nonpositive |].
  split; [apply altitude_sea_level |].
  split; [apply altitude_antitone |].
  split; [apply summitFraction_bounds |].
  split; [apply altitude_at_summit |].
  split; [apply altitude_between | apply altitude_strict].
Qed.

Lemma equivalentAltitude_range_antitone_witness :
  equivalentAltitudeFromFraction (-1) = 8848 /\
  equivalentAltitudeFromFraction 0.209 = 0 /\
  equivalentAltitudeFromFraction 0.209 <= equivalentAltitudeFromFraction (-1) /\
  equivalentAltitudeFromFraction 0.02 = 8848 /\
  equivalentAltitudeFromFraction 0.15 = -7000 * ln (0.15 / 0.209) /\
  equivalentAltitudeFromFraction 0.2 < equivalentAltitudeFromFraction 0.15.
Proof.
  destruct (equivalentAltitude_range_antitone (-1) 0.209)
    as [_ [Hcap [_ [Hanti _]]]].
  destruct (equivalentAltitude_range_antitone 0.209 0.209)
    as [_ [_ [Hsea _]]].
  destruct (equivalentAltitude_range_antitone 0.02 0.02)
    as [_ [_ [_ [_ [[Hlow _] [Hsummit _]]]]]].
  destruct (equivalentAltitude_range_antitone 0.15 0.2)
    as [_ [_ [_ [_ [[_ Hup] [_ [Hbetween Hstrict]]]]]]].
  split; [apply Hcap; lra |].
  split; [apply Hsea; lra |].
  split; [apply Hanti; lra |].
  split; [apply Hsummit; lra |].
  split; [apply Hbetween; lra | apply Hstrict; lra].
Defined.

(** C2 as stated fails: the floor 0.01 of the oxygen reading and the
    fraction 0.02 both map to the summit, so the altitude does not strictly
    decrease between them. *)
Lemma equivalentAltitude_not_strictly_decreasing :
  0.01 < 0.02 /\
  equivalentAltitudeFromFraction 0.01 = 8848 /\
  equivalentAltitudeFromFraction 0.02 = 8848 /\
  ~ (equivalentAltitudeFromFraction 0.02 < equivalentAltitudeFromFraction 0.01).
Proof.
  assert (H1 : equivalentAltitudeFromFraction 0.01 = 8848)
    by (apply altitude_summit; lra).
  assert (H2 : equivalentAltitudeFromFraction 0.02 = 8848)
    by (apply altitude_summit; lra).
  rewrite H1, H2. repeat split; lra.
Qed.

(** ** Cost accrual *)

Lemma floor_IZR (z : Z) : floor (IZR z) = IZR z.
Proof. unfold floor. now rewrite ZfloorZ. Qed.

Lemma participants_initial : participants initialState = 6.
Proof.
  unfold participants, st_onsite, remote; cbn [initialState numOnsite numRemote].
  rewrite (floor_IZR 4), (floor_IZR 2). maxmin.
Qed.

Lemma liveCost_setElapsed (e : R) (st : State) :
  liveCost (setElapsed e st)
  = participants st * (hourlyCostPerPerson st / 3600) * e.
Proof. reflexivity. Qed.

(** C3. [liveCost] is the number of participants (onsite plus remote) times
    [hourlyCostPerPerson / 3600] times the elapsed seconds; it is linear in
    the elapsed seconds, so doubling them doubles the cost; with an hourly
    cost of 80, 4 onsite and 2 remote participants and 3600 elapsed seconds
    it is 480. *)
Theorem liveCost_linear (st : State) :
  liveCost st = participants st * (hourlyCostPerPerson st / 3600) * elapsed st /\
  participants st = st_onsite st + remote st /\
  (forall k e : R, liveCost (setElapsed (k * e) st) = k * liveCost (setElapsed e st)) /\
  liveCost (setElapsed (2 * elapsed st) st) = 2 * liveCost st /\
  liveCost (setElapsed 3600 initialState) = 480.
Proof.
  split; [reflexivity |].
  split; [reflexivity |].
  split; [intros k e; rewrite !liveCost_setElapsed; ring |].
  split.
  - rewrite liveCost_setElapsed. unfold liveCost, costPerSecondPerPerson. ring.
  - rewrite liveCost_setElapsed.
    rewrite participants_initial. cbn [initialState hourlyCostPerPerson]. lra.
Qed.

(** ** Remote participants *)

Lemma o2_setNumRemote (r : R) (st : State) : o2 (setNumRemote r st) = o2 st.
Proof. reflexivity. Qed.

Lemma liveCost_setNumRemote (r : R) (st : State) :
  liveCost (setNumRemote r st) - liveCost st
  = (remote (setNumRemote r st) - remote st)
    * (hourlyCostPerPerson st / 3600) * elapsed st.
Proof.
  unfold liveCost, participants, costPerSecondPerPerson, st_onsite.
  cbn [setNumRemote numOnsite hourlyCostPerPerson elapsed]. ring.
Qed.

Lemma product_nonzero (a h e : R) :
  a * (h / 3600) * e <> 0 <-> a <> 0 /\ h <> 0 /\ e <> 0.
Proof.
  split.
  - intros Hp. repeat split; intros ->; apply Hp; unfold Rdiv; ring.
  - intros [Ha [Hh He]] Hp.
    apply Rmult_integral in Hp. destruct Hp as [Hp | Hp]; [| contradiction].
    apply Rmult_integral in Hp. destruct Hp as [Hp | Hp]; [contradiction |].
    lra.
Qed.

(** C5, as the code has it. Two states that differ only in [numRemote] give
    the same oxygen reading and the same equivalent altitude.  Their live
    costs differ by the difference of the remote head counts (floored, and
    at least 0) times the cost per second times the elapsed seconds: the
    costs differ exactly when the remote head counts differ, the hourly cost
    is not 0 and the elapsed time is not 0. *)
Theorem remote_only_change (r : R) (st : State) :
  o2 (setNumRemote r st) = o2 st /\
  eqAlt (setNumRemote r st) = eqAlt st /\
  liveCost (setNumRemote r st) - liveCost st
  = (remote (setNumRemote r st) - remote st)
    * (hourlyCostPerPerson st / 3600) * elapsed st /\
  (liveCost (setNumRemote r st) <> liveCost st <->
   remote (setNumRemote r st) <> remote st /\
   hourlyCostPerPerson st <> 0 /\ elapsed st <> 0).
Proof.
  split; [reflexivity |].
  split; [reflexivity |].
  split; [apply liveCost_setNumRemote |].
  pose proof (liveCost_setNumRemote r st) as Hdiff.
  pose proof (product_nonzero (remote (setNumRemote r st) - remote st)
                (hourlyCostPerPerson st) (elapsed st)) as [Hfwd Hbwd].
  split.
  - intros Hne.
    destruct Hfwd as [Hr [Hh He]]; [rewrite <- Hdiff; lra |].
    repeat split; [lra | exact Hh | exact He].
  - intros [Hr [Hh He]] Heq.
    apply Hbwd; [repeat split; [lra | exact Hh | exact He] |].
    rewrite <- Hdiff. lra.
Qed.

Lemma remote_initial (r : Z) (e : R) :
  remote (setNumRemote (IZR r) (setElapsed e initialState)) = Rmax 0 (IZR r).
Proof.
  unfold remote; cbn [setNumRemote numRemote]. now rewrite floor_IZR.
Qed.

Lemma remote_only_change_witness :
  liveCost (setNumRemote 3 (setElapsed 3600 initialState))
  <> liveCost (setElapsed 3600 initialState).
Proof.
  apply (remote_only_change 3 (setElapsed 3600 initialState)).
  split; [| cbn [setElapsed initialState hourlyCostPerPerson elapsed]; lra].
  rewrite (remote_initial 3 3600).
  unfold remote; cbn [setElapsed initialState numRemote].
  rewrite (floor_IZR 2). maxmin.
Defined.

(** C5 as stated fails: before the clock has run, changing the remote head
    count from 2 to 3 leaves the live cost at 0. *)
Lemma remote_change_same_cost :
  numRemote (setNumRemote 3 initialState) <> numRemote initialState /\
  remote (setNumRemote 3 initialState) <> remote initialState /\
  o2 (setNumRemote 3 initialState) = o2 initialState /\
  liveCost initialState = 0 /\
  liveCost (setNumRemote 3 initialState) = liveCost initialState.
Proof.
  assert (Hcost : forall st, elapsed st = 0 -> liveCost st = 0).
  { intros st H. unfold liveCost. rewrite H. ring. }
  split; [cbn [setNumRemote initialState numRemote]; lra |].
  split.
  - unfold remote; cbn [setNumRemote initialState numRemote].
    rewrite (floor_IZR 3), (floor_IZR 2). maxmin.
  - split; [reflexivity |].
    rewrite !Hcost by reflexivity. split; reflexivity.
Qed.

(** ** The timer *)

Lemma raf_elapsed_le (now : R) (st : State) : elapsed st <= elapsed (raf now st).
Proof.
  unfold raf. destruct (Rle_dec _ _) as [Hdt | Hdt]; cbn [setLastTickRef setElapsed elapsed]; lra.
Qed.

Lemma raf_isRunning (now : R) (st : State) : isRunning (raf now st) = isRunning st.
Proof. unfold raf. now destruct (Rle_dec _ _). Qed.

(** The first sample after a start only records the baseline. *)
Lemma raf_baseline (now : R) (st : State) :
  lastTickRef st = None -> raf now st = setLastTickRef (Some now) st.
Proof.
  intros Hlast. unfold raf. rewrite Hlast.
  destruct (Rle_dec _ _) as [Hdt | Hdt]; [| reflexivity].
  exfalso. replace ((now - now) / 1000) with 0 in Hdt by (field; lra). lra.
Qed.

(** A later sample adds nothing, or the wall-clock time since the last
    accepted sample, which is at least 50 ms. *)
Lemma raf_sample (now l : R) (st : State) :
  lastTickRef st = Some l ->
  (now - l) / 1000 < 0.05 /\ raf now st = setLastTickRef (Some l) st \/
  0.05 <= (now - l) / 1000 /\
  raf now st = setLastTickRef (Some now) (setElapsed (elapsed st + (now - l) / 1000) st).
Proof.
  intros Hlast. unfold raf. rewrite Hlast.
  destruct (Rle_dec _ _) as [Hdt | Hdt]; [right | left]; split; trivial; lra.
Qed.

Lemma setIsRunning_elapsed (v : bool) (st : State) :
  elapsed (setIsRunning v st) = elapsed st.
Proof.
  unfold setIsRunning, timerEffect.
  destruct (Bool.eqb _ _); [reflexivity |].
  now destruct (isRunning (writeIsRunning v st)).
Qed.

Lemma setIsRunning_isRunning (v : bool) (st : State) :
  isRunning (setIsRunning v st) = v.
Proof.
  unfold setIsRunning, timerEffect.
  destruct (Bool.eqb _ _); [reflexivity |].
  now destruct v.
Qed.

Lemma addNote_elapsed (newId : JsString.t) (st : State) :
  elapsed (addNote newId st) = elapsed st.
Proof. unfold addNote. now destruct (_ && _). Qed.

Lemma addNote_clock (newId : JsString.t) (st : State) :
  isRunning (addNote newId st) = isRunning st /\
  lastTickRef (addNote newId st) = lastTickRef st.
Proof. unfold addNote. now destruct (_ && _). Qed.

(** Every event but a frame and Reset leaves [elapsed] as it is. *)
Lemma step_elapsed_eq (st : State) (e : Event) :
  e <> Reset -> (forall now, e <> Frame now) -> elapsed (step st e) = elapsed st.
Proof.
  intros Hreset Hframe.
  destruct e; cbn [step]; try reflexivity.
  - apply setIsRunning_elapsed.
  - contradiction.
  - now elim (Hframe now).
  - apply addNote_elapsed.
Qed.

Lemma step_elapsed_le (st : State) (e : Event) :
  e <> Reset -> elapsed st <= elapsed (step st e).
Proof.
  intros Hreset.
  destruct e; try (rewrite step_elapsed_eq; [lra | assumption | discriminate]).
  cbn [step]. destruct (isRunning st); [apply raf_elapsed_le | lra].
Qed.

Lemma step_stopped_frozen (st : State) (e : Event) :
  isRunning st = false -> e <> Reset -> elapsed (step st e) = elapsed st.
Proof.
  intros Hstop Hreset.
  destruct e; try (apply step_elapsed_eq; [assumption | discriminate]).
  cbn [step]. now rewrite Hstop.
Qed.

Lemma reset_clock (st : State) :
  elapsed (reset st) = 0 /\ isRunning (reset st) = false.
Proof.
  unfold reset. cbn [setElapsed elapsed isRunning].
  split; [reflexivity | apply setIsRunning_isRunning].
Qed.

Lemma step_stoppedClean (st : State) (e : Event) :
  stoppedClean st -> stoppedClean (step st e).
Proof.
  unfold stoppedClean. intros Hinv.
  destruct e; cbn [step]; try exact Hinv.
  - (* ToggleRunning *)
    unfold toggleRunning, setIsRunning, timerEffect.
    destruct (isRunning st); cbn; intros H; [reflexivity | discriminate H].
  - (* Reset *)
    unfold reset, setIsRunning, timerEffect.
    destruct (isRunning st); cbn; intros H; [reflexivity | exact (Hinv H)].
  - (* Frame *)
    destruct (isRunning st) eqn:Hrun.
    + rewrite raf_isRunning, Hrun. intros H; discriminate H.
    + intros _. apply Hinv. reflexivity.
  - (* AddNote *)
    destruct (addNote_clock newId st) as [-> ->]. exact Hinv.
Qed.

Lemma run_snoc (st : State) (evs : list Event) (e : Event) :
  run st (evs ++ [e]) = step (run st evs) e.
Proof. unfold run. now rewrite fold_left_app. Qed.

Lemma run_stoppedClean (evs : list Event) (st : State) :
  stoppedClean st -> stoppedClean (run st evs).
Proof.
  revert st. induction evs as [| e evs IH]; intros st Hinv; [exact Hinv |].
  apply IH, step_stoppedClean, Hinv.
Qed.

Lemma initial_stoppedClean : stoppedClean initialState.
Proof. intros _. reflexivity. Qed.

Lemma run_elapsed_nonneg (evs : list Event) (st : State) :
  0 <= elapsed st -> 0 <= elapsed (run st evs).
Proof.
  revert st. induction evs as [| e evs IH]; intros st Hpos; [exact Hpos |].
  apply IH.
  destruct e; try (apply Rle_trans with (elapsed st);
                   [exact Hpos | apply step_elapsed_le; discriminate]).
  destruct (reset_clock st) as [Hzero _]. cbn [step]. rewrite Hzero. lra.
Qed.

Lemma step_other (st : State) (e : Event) :
  isClockEvent e = false ->
  isRunning (step st e) = isRunning st /\
  lastTickRef (step st e) = lastTickRef st /\
  elapsed (step st e) = elapsed st.
Proof.
  intros He.
  destruct e; try discriminate He; cbn [step]; try (repeat split; reflexivity).
  destruct (addNote_clock newId st) as [-> ->].
  now rewrite addNote_elapsed.
Qed.

Lemma run_other (evs : list Event) (st : State) :
  Forall (fun e => isClockEvent e = false) evs ->
  isRunning (run st evs) = isRunning st /\
  lastTickRef (run st evs) = lastTickRef st /\
  elapsed (run st evs) = elapsed st.
Proof.
  revert st. induction evs as [| e evs IH]; intros st Hall; [now repeat split |].
  inversion Hall as [| ? ? He Hrest]; subst.
  destruct (IH (step st e) Hrest) as [H1 [H2 H3]].
  destruct (step_other st e He) as [G1 [G2 G3]].
  change (run st (e :: evs)) with (run (step st e) evs).
  rewrite H1, H2, H3. now repeat split.
Qed.

(** Starting a stopped clock and taking the first sample adds nothing,
    whatever is edited in between. *)
Lemma start_first_sample (now : R) (mid : list Event) (st : State) :
  stoppedClean st -> isRunning st = false ->
  Forall (fun e => isClockEvent e = false) mid ->
  elapsed (run st (ToggleRunning :: mid ++ [Frame now])) = elapsed st.
Proof.
  intros Hinv Hstop Hmid.
  change (run st (ToggleRunning :: mid ++ [Frame now]))
    with (run (step st ToggleRunning) (mid ++ [Frame now])).
  rewrite run_snoc.
  assert (Hstart : isRunning (step st ToggleRunning) = true).
  { cbn [step]. unfold toggleRunning. now rewrite setIsRunning_isRunning, Hstop. }
  assert (Hnone : lastTickRef (step st ToggleRunning) = None).
  { cbn [step]. unfold toggleRunning, setIsRunning. rewrite Hstop. cbn.
    exact (Hinv Hstop). }
  assert (Hsame : elapsed (step st ToggleRunning) = elapsed st)
    by apply setIsRunning_elapsed.
  set (st1 := step st ToggleRunning) in *.
  destruct (run_other mid st1 Hmid) as [Hrun [Hlast Hel]].
  change (step (run st1 mid) (Frame now))
    with (if isRunning (run st1 mid) then raf now (run st1 mid) else run st1 mid).
  rewrite Hrun, Hstart.
  rewrite raf_baseline by now rewrite Hlast.
  cbn [setLastTickRef elapsed]. now rewrite Hel.
Qed.

(** Pausing and resuming, however long the pause, adds nothing either. *)
Lemma pause_resume_first_sample (now : R) (mid : list Event) (st : State) :
  isRunning st = true ->
  Forall (fun e => isClockEvent e = false) mid ->
  elapsed (run st (ToggleRunning :: ToggleRunning :: mid ++ [Frame now]))
  = elapsed st.
Proof.
  intros Hrun Hmid.
  change (run st (ToggleRunning :: ToggleRunning :: mid ++ [Frame now]))
    with (run (step st ToggleRunning) (ToggleRunning :: mid ++ [Frame now])).
  rewrite start_first_sample.
  - apply setIsRunning_elapsed.
  - intros _. cbn [step]. unfold toggleRunning, setIsRunning, timerEffect.
    rewrite Hrun. reflexivity.
  - cbn [step]. unfold toggleRunning. rewrite setIsRunning_isRunning, Hrun.
    reflexivity.
  - exact Hmid.
Qed.

Lemma run_elapsed_le (evs : list Event) (st : State) :
  Forall (fun e => e <> Reset) evs -> elapsed st <= elapsed (run st evs).
Proof.
  revert st. induction evs as [| e evs IH]; intros st Hall; [cbn; lra |].
  inversion Hall as [| ? ? He Hrest]; subst.
  apply Rle_trans with (elapsed (step st e)).
  - now apply step_elapsed_le.
  - now apply IH.
Qed.

Lemma step_stopped_stays (st : State) (e : Event) :
  isRunning st = false -> e <> ToggleRunning -> isRunning (step st e) = false.
Proof.
  intros Hstop Htoggle.
  destruct e; cbn [step]; try exact Hstop.
  - contradiction.
  - apply reset_clock.
  - now rewrite Hstop.
  - now destruct (addNote_clock newId st) as [-> _].
Qed.

Lemma run_stopped_frozen (evs : list Event) (st : State) :
  isRunning st = false ->
  Forall (fun e => e <> Reset /\ e <> ToggleRunning) evs ->
  elapsed (run st evs) = elapsed st /\ isRunning (run st evs) = false.
Proof.
  revert st. induction evs as [| e evs IH]; intros st Hstop Hall; [now split |].
  inversion Hall as [| ? ? [Hreset Htoggle] Hrest]; subst.
  destruct (IH (step st e)) as [Hel Hrun];
    [now apply step_stopped_stays | exact Hrest |].
  split; [| exact Hrun].
  change (run st (e :: evs)) with (run (step st e) evs).
  rewrite Hel. now apply step_stopped_frozen.
Qed.

(** C4. From the mounted component, after any sequence [evs] of intents and
    frames (whatever the sampled wall-clock times, non-decreasing ones
    included): [elapsed] is not negative; it does not decrease along any
    continuation without Reset; Reset sets it to 0; while [isRunning] is
    false it stays as it is under any continuation without Reset and
    without a start; and the first frame after a start, or after a pause
    followed by a resume, adds nothing however late it comes, so the time
    spent paused is never added.  A frame that does add time adds the
    wall-clock time since the last sample of the same running period. *)
Theorem clock_elapsed_monotone_frozen (evs evs' mid : list Event) (now : R) :
  let st := run initialState evs in
  0 <= elapsed st /\
  (Forall (fun e => e <> Reset) evs' -> elapsed st <= elapsed (run st evs')) /\
  elapsed (step st Reset) = 0 /\
  (isRunning st = false ->
   Forall (fun e => e <> Reset /\ e <> ToggleRunning) evs' ->
   elapsed (run st evs') = elapsed st) /\
  (isRunning st = false -> lastTickRef st = None) /\
  (isRunning st = false ->
   Forall (fun e => isClockEvent e = false) mid ->
   elapsed (run st (ToggleRunning :: mid ++ [Frame now])) = elapsed st) /\
  (isRunning st = true ->
   Forall (fun e => isClockEvent e = false) mid ->
   elapsed (run st (ToggleRunning :: ToggleRunning :: mid ++ [Frame now]))
   = elapsed st) /\
  (isRunning st = true -> forall l, lastTickRef st = Some l ->
   elapsed (step st (Frame now)) = elapsed st \/
   0.05 <= (now - l) / 1000 /\
   elapsed (step st (Frame now)) = elapsed st + (now - l) / 1000).
Proof.
  intros st.
  assert (Hinv : stoppedClean st)
    by (apply run_stoppedClean, initial_stoppedClean).
  split; [apply run_elapsed_nonneg; cbn; lra |].
  split; [apply run_elapsed_le |].
  split; [apply reset_clock |].
  split; [intros Hstop Hall; now apply run_stopped_frozen |].
  split; [exact Hinv |].
  split; [intros Hstop Hmid; now apply start_first_sample |].
  split; [apply pause_resume_first_sample |].
  intros Hrun l Hlast. cbn [step]. rewrite Hrun.
  destruct (raf_sample now l st Hlast) as [[_ ->] | [Hdt ->]].
  - left. reflexivity.
  - right. split; [exact Hdt | reflexivity].
Qed.

Lemma clock_elapsed_monotone_frozen_witness :
  let st := run initialState [ToggleRunning; ToggleRunning] in
  elapsed st <= elapsed (run st [ToggleRunning; Frame 1000; Frame 2000]) /\
  elapsed (run st [Frame 1000; AddNote []; Frame 2000]) = elapsed st /\
  elapsed (run st [ToggleRunning; SetNumOnsite 5; Frame 9000]) = elapsed st.
Proof.
  intros st.
  destruct (clock_elapsed_monotone_frozen
              [ToggleRunning; ToggleRunning]
              [ToggleRunning; Frame 1000; Frame 2000] [SetNumOnsite 5] 9000)
    as [_ [Hmono [_ [_ [_ [Hfirst _]]]]]].
  destruct (clock_elapsed_monotone_frozen
              [ToggleRunning; ToggleRunning]
              [Frame 1000; AddNote []; Frame 2000] [] 9000)
    as [_ [_ [_ [Hfrozen _]]]].
  split; [apply Hmono; repeat constructor; discriminate |].
  split; [apply Hfrozen; [reflexivity | repeat constructor; discriminate] |].
  apply Hfirst; [reflexivity | repeat constructor].
Defined.

(** C6. Whatever the state before (running or not, any elapsed time, the
    freshly mounted component included), the Reset intent leaves
    [elapsed = 0] and [isRunning = false]. *)
Theorem reset_yields_zero_stopped (st : State) :
  elapsed (step st Reset) = 0 /\
  isRunning (step st Reset) = false /\
  elapsed (step initialState Reset) = 0 /\
  isRunning (step initialState Reset) = false.
Proof.
  cbn [step].
  destruct (reset_clock st) as [H1 H2], (reset_clock initialState) as [H3 H4].
  repeat split; assumption.
Qed.

(** C9. The Reset intent writes the clock only: the notes, the topic and
    note drafts and every session parameter are as before. *)
Theorem reset_frame (st : State) :
  notes (step st Reset) = notes st /\
  topic (step st Reset) = topic st /\
  note (step st Reset) = note st /\
  numOnsite (step st Reset) = numOnsite st /\
  numRemote (step st Reset) = numRemote st /\
  st_roomArea (step st Reset) = st_roomArea st /\
  hourlyCostPerPerson (step st Reset) = hourlyCostPerPerson st /\
  currency (step st Reset) = currency st /\
  o2Lpm (step st Reset) = o2Lpm st.
Proof.
  cbn [step]. unfold reset, setIsRunning, timerEffect.
  destruct st as [a b c d e f run el last tp nt ns].
  destruct run; cbn; repeat split; reflexivity.
Qed.

(** ** Strings *)

Lemma trimStart_spec (s : JsString.t) :
  exists l,
    s = l ++ JsString.trimStart s /\
    Forall (fun c => JsString.isWhiteSpace c = true) l /\
    match JsString.trimStart s with
    | [] => True
    | c :: _ => JsString.isWhiteSpace c = false
    end.
Proof.
  induction s as [| c s IH].
  - exists []. cbn. auto.
  - cbn [JsString.trimStart]. destruct (JsString.isWhiteSpace c) eqn:Hc.
    + destruct IH as [l [Heq [Hl Hhead]]].
      exists (c :: l). split; [cbn; now rewrite <- Heq |]. split; auto.
    + exists []. cbn. auto.
Qed.

Lemma trimEnd_spec (s : JsString.t) :
  exists r,
    s = JsString.trimEnd s ++ r /\
    Forall (fun c => JsString.isWhiteSpace c = true) r /\
    match rev (JsString.trimEnd s) with
    | [] => True
    | c :: _ => JsString.isWhiteSpace c = false
    end.
Proof.
  destruct (trimStart_spec (rev s)) as [l [Heq [Hl Hhead]]].
  exists (rev l). unfold JsString.trimEnd. split; [| split].
  - rewrite <- rev_app_distr, <- Heq. symmetry. apply rev_involutive.
  - now apply Forall_rev.
  - now rewrite rev_involutive.
Qed.

(** [trim] removes a run of white space at each end, and nothing else: what
    is left neither starts nor ends with white space. *)
Lemma trim_spec (s : JsString.t) :
  exists l r,
    s = l ++ JsString.trim s ++ r /\
    Forall (fun c => JsString.isWhiteSpace c = true) l /\
    Forall (fun c => JsString.isWhiteSpace c = true) r /\
    match JsString.trim s with
    | [] => True
    | c :: _ => JsString.isWhiteSpace c = false
    end /\
    match rev (JsString.trim s) with
    | [] => True
    | c :: _ => JsString.isWhiteSpace c = false
    end.
Proof.
  destruct (trimStart_spec s) as [l [Hl [Hwl Hhead]]].
  destruct (trimEnd_spec (JsString.trimStart s)) as [r [Hr [Hwr Hlast]]].
  exists l, r. unfold JsString.trim.
  split; [now rewrite <- Hr |].
  repeat split; try assumption.
  destruct (JsString.trimEnd (JsString.trimStart s)) as [| c u] eqn:Hu;
    [exact I |].
  rewrite Hr in Hhead. exact Hhead.
Qed.

Lemma or_nonempty (a b : JsString.t) : b <> [] -> JsString.or a b <> [].
Proof. intros Hb. unfold JsString.or. destruct a; [exact Hb | discriminate]. Qed.

Lemma or_match (a b : JsString.t) :
  JsString.or a b = match a with [] => b | _ :: _ => a end.
Proof. now destruct a. Qed.

(** ** The note log *)

Lemma addNote_noop (newId : JsString.t) (st : State) :
  JsString.trim (topic st) = [] -> JsString.trim (note st) = [] ->
  addNote newId st = st.
Proof. intros Ht Hn. unfold addNote. now rewrite Ht, Hn. Qed.

Lemma addNote_prepends (newId : JsString.t) (st : State) :
  JsString.trim (topic st) <> [] \/ JsString.trim (note st) <> [] ->
  addNote newId st
  = setNote []
      (setNotes
         (mkNote newId (elapsed st)
            (match JsString.trim (topic st) with
             | [] => untitled
             | _ :: _ => JsString.trim (topic st)
             end)
            (JsString.trim (note st)) :: notes st) st).
Proof.
  intros Hne. unfold addNote. rewrite or_match.
  destruct (JsString.trim (topic st)) as [| c t];
    destruct (JsString.trim (note st)) as [| d n]; try reflexivity.
  destruct Hne as [H | H]; now elim H.
Qed.

Lemma addNote_notes (newId : JsString.t) (st : State) :
  notes (addNote newId st) = notes st \/
  exists nt, notes (addNote newId st) = nt :: notes st /\
             id nt = newId /\ note_topic nt <> [].
Proof.
  unfold addNote. destruct (_ && _); [now left | right].
  eexists. split; [reflexivity |]. split; [reflexivity |].
  cbn [note_topic]. apply or_nonempty. discriminate.
Qed.

(** C7. [addNote] trims the topic and note drafts.  When both are empty
    after trimming it changes nothing.  Otherwise it prepends a note that
    carries the identifier returned by [uuid()], the current [elapsed] as
    timestamp, the trimmed topic, or ["(untitled)"] when that is empty, and
    the trimmed (possibly empty) text; when the identifier is fresh for the
    log, the identifiers of the log stay pairwise distinct.  With both
    drafts empty nothing changes; with the topic draft ["  Roadmap  "] and
    an empty note draft the new note has topic ["Roadmap"] and empty
    text. *)
Theorem addNote_contract (newId : JsString.t) (st : State) :
  (JsString.trim (topic st) = [] -> JsString.trim (note st) = [] ->
   addNote newId st = st) /\
  (JsString.trim (topic st) <> [] \/ JsString.trim (note st) <> [] ->
   notes (addNote newId st)
   = mkNote newId (elapsed st)
       (match JsString.trim (topic st) with
        | [] => untitled
        | _ :: _ => JsString.trim (topic st)
        end)
       (JsString.trim (note st)) :: notes st) /\
  (~ In newId (map id (notes st)) -> NoDup (map id (notes st)) ->
   NoDup (map id (notes (addNote newId st)))) /\
  addNote newId (setNote [] (setTopic [] st)) = setNote [] (setTopic [] st) /\
  notes (addNote newId (setNote [] (setTopic (JsString.lit "  Roadmap  ") st)))
  = mkNote newId (elapsed st) (JsString.lit "Roadmap") [] :: notes st.
Proof.
  split; [apply addNote_noop |].
  split; [intros Hne; now rewrite addNote_prepends |].
  split; [| split; reflexivity].
  intros Hfresh Hdup.
  destruct (addNote_notes newId st) as [-> | [nt [-> [Hid _]]]];
    [exact Hdup |].
  cbn [map]. rewrite Hid. now constructor.
Qed.

Lemma addNote_contract_witness :
  let st := setTopic (JsString.lit " Q4 ") initialState in
  notes (addNote (JsString.lit "id-1") st)
  = [mkNote (JsString.lit "id-1") 0 (JsString.lit "Q4") []] /\
  NoDup (map id (notes (addNote (JsString.lit "id-1") st))) /\
  addNote (JsString.lit "id-1") initialState = initialState.
Proof.
  intros st.
  destruct (addNote_contract (JsString.lit "id-1") st)
    as [_ [Hadd [Hfresh _]]].
  destruct (addNote_contract (JsString.lit "id-1") initialState)
    as [Hnoop _].
  split; [apply Hadd; left; discriminate |].
  split; [apply Hfresh; [intros [] | constructor] |].
  apply Hnoop; reflexivity.
Defined.

Lemma step_topics (st : State) (e : Event) :
  Forall (fun nt => note_topic nt <> []) (notes st) ->
  Forall (fun nt => note_topic nt <> []) (notes (step st e)).
Proof.
  intros Hall.
  destruct e; cbn [step]; try exact Hall.
  - unfold toggleRunning, setIsRunning, timerEffect.
    destruct (Bool.eqb _ _); [exact Hall |].
    now destruct (isRunning (writeIsRunning _ st)).
  - unfold reset, setIsRunning, timerEffect.
    destruct (Bool.eqb _ _); [exact Hall |].
    now destruct (isRunning (writeIsRunning _ st)).
  - destruct (isRunning st); [| exact Hall].
    unfold raf. now destruct (Rle_dec _ _).
  - destruct (addNote_notes newId st) as [-> | [nt [-> [_ Htopic]]]];
      [exact Hall | now constructor].
  - constructor.
Qed.

(** C10. In every state that a sequence of [addNote] and Clear operations
    reaches from the mounted component, with any other intents and frames
    in between, each note of the log has a non-empty topic. *)
Theorem notes_topic_nonempty (evs : list Event) :
  Forall (fun nt => note_topic nt <> []) (notes (run initialState evs)).
Proof.
  assert (H : forall st, Forall (fun nt => note_topic nt <> []) (notes st) ->
                         Forall (fun nt => note_topic nt <> [])
                                (notes (run st evs))).
  { induction evs as [| e evs IH]; intros st Hall; [exact Hall |].
    apply IH, step_topics, Hall. }
  apply H. constructor.
Qed.

(** * Further properties *)

(** ** The oxygen reading, all four outputs *)

Lemma percent_frac (a : O2Args) :
  percent (computeO2Fraction a) = frac (computeO2Fraction a) * 100.
Proof.
  assert (Hf : 0.01 <= frac (computeO2Fraction a) <= 0.209).
  { destruct a as [s o ar ce lp]. apply frac_range. }
  unfold computeO2Fraction in *; cbn [percent frac] in *.
  apply Rmin_right. lra.
Qed.

Section DoubleOutputs.

Import PrimFloat.



End DoubleOutputs.

(** Between the clamps the fraction falls linearly with the consumed
    volume: as long as the occupants have used at most 0.199 of the room
    volume, it is 0.209 minus consumed over volume. *)
Theorem computeO2Fraction_linear_regime (a : O2Args) :
  let r := computeO2Fraction a in
  let consumed :=
    onsite a * orDefault (perPersonO2Lpm a) 0.6 * (seconds a / 60) in
  0 <= consumed -> consumed <= 0.199 * volume_L r ->
  consumed_L r = consumed /\
  frac r = 0.209 - consumed_L r / volume_L r.
Proof.
  intros r c Hc0 Hc1.
  unfold r, computeO2Fraction in *; cbn [frac consumed_L volume_L] in *.
  fold c.
  set (v := Rmax 1 (roomArea a * orDefault (ceiling a) 3) * 1000) in *.
  assert (Hv : 0 < v) by apply volume_pos.
  assert (Hmax : Rmax 0 c = c) by (apply Rmax_right; exact Hc0).
  rewrite Hmax. split; [reflexivity |].
  assert (Hrem : Rmax 0 (v * 0.209 - c) = v * 0.209 - c)
    by (apply Rmax_right; lra).
  rewrite Hrem.
  replace ((v * 0.209 - c) / v) with (0.209 - c / v) by (field; lra).
  assert (Hq : 0 <= c / v <= 0.199).
  { split.
    - apply Rmult_le_pos; [exact Hc0 | left; now apply Rinv_0_lt_compat].
    - replace 0.199 with (0.199 * v / v) by (field; lra).
      apply div_le_mono; lra. }
  rewrite Rmax_right by lra. apply Rmin_right. lra.
Qed.

Lemma computeO2Fraction_linear_regime_witness :
  frac (computeO2Fraction (mkO2Args 600 4 30 None None))
  = 0.209 - consumed_L (computeO2Fraction (mkO2Args 600 4 30 None None))
            / volume_L (computeO2Fraction (mkO2Args 600 4 30 None None)).
Proof.
  apply (computeO2Fraction_linear_regime (mkO2Args 600 4 30 None None)).
  - cbn [onsite perPersonO2Lpm seconds orDefault]. lra.
  - unfold computeO2Fraction;
      cbn [volume_L onsite perPersonO2Lpm seconds roomArea ceiling orDefault].
    assert (Hvol : Rmax 1 (30 * 3) = 90) by maxmin.
    rewrite Hvol. lra.
Defined.

(** Once the occupants have used 0.199 of the room volume or more, the
    reading stays at the floor: fraction 0.01, 1 percent, and the equivalent
    altitude is the summit, 8848 m. *)
Theorem computeO2Fraction_depleted (a : O2Args) :
  let r := computeO2Fraction a in
  0.199 * volume_L r
  <= onsite a * orDefault (perPersonO2Lpm a) 0.6 * (seconds a / 60) ->
  frac r = 0.01 /\ percent r = 1 /\
  equivalentAltitudeFromFraction (frac r) = 8848.
Proof.
  intros r Hc.
  assert (Hfrac : frac r = 0.01).
  { unfold r, computeO2Fraction in *; cbn [frac volume_L] in *.
    set (c := onsite a * orDefault (perPersonO2Lpm a) 0.6 * (seconds a / 60)) in *.
    set (v := Rmax 1 (roomArea a * orDefault (ceiling a) 3) * 1000) in *.
    assert (Hv : 0 < v) by apply volume_pos.
    assert (Hq : Rmax 0 (v * 0.209 - c) / v <= 0.01).
    { replace 0.01 with (0.01 * v / v) by (field; lra).
      apply div_le_mono; [exact Hv |]. maxmin. }
    rewrite Rmax_left by exact Hq. apply Rmin_right. lra. }
  split; [exact Hfrac |].
  split.
  - pose proof (percent_frac a) as Hp. fold r in Hp.
    rewrite Hp, Hfrac. lra.
  - apply altitude_summit. lra.
Qed.

Lemma computeO2Fraction_depleted_witness :
  frac (computeO2Fraction (mkO2Args 600000 4 30 None None)) = 0.01 /\
  percent (computeO2Fraction (mkO2Args 600000 4 30 None None)) = 1 /\
  equivalentAltitudeFromFraction
    (frac (computeO2Fraction (mkO2Args 600000 4 30 None None))) = 8848.
Proof.
  apply (computeO2Fraction_depleted (mkO2Args 600000 4 30 None None)).
  unfold computeO2Fraction;
    cbn [volume_L onsite perPersonO2Lpm seconds roomArea ceiling orDefault].
  assert (Hvol : Rmax 1 (30 * 3) = 90) by maxmin.
  rewrite Hvol. lra.
Defined.

(** ** More people, smaller rooms *)

Lemma div_cross_le (x y v1 v2 : R) :
  0 < v1 -> 0 < v2 -> x * v2 <= y * v1 -> x / v1 <= y / v2.
Proof.
  intros H1 H2 Hxy.
  replace (x / v1) with (x * v2 / (v1 * v2)) by (field; lra).
  replace (y / v2) with (y * v1 / (v1 * v2)) by (field; lra).
  apply div_le_mono; [| exact Hxy].
  now apply Rmult_lt_0_compat.
Qed.

(** With the same consumption, the larger of two volumes keeps the larger
    share of oxygen. *)
Lemma remaining_share_mono (c v1 v2 : R) :
  0 < v1 -> v1 <= v2 -> 0 <= c ->
  Rmax 0 (v1 * 0.209 - c) / v1 <= Rmax 0 (v2 * 0.209 - c) / v2.
Proof.
  intros H1 H12 Hc.
  apply div_cross_le; [lra | lra |].
  assert (Hcv : c * v1 <= c * v2) by (apply Rmult_le_compat_l; lra).
  unfold Rmax.
  destruct (Rle_dec 0 (v1 * 0.209 - c)), (Rle_dec 0 (v2 * 0.209 - c));
    try lra.
  rewrite Rmult_0_l. apply Rmult_le_pos; lra.
Qed.

(** More people onsite never raise the fraction: for a consumption rate and
    an elapsed time that are not negative, the fraction does not increase
    with the onsite head count. *)
Theorem computeO2Fraction_antitone_onsite
    (s ons1 ons2 area : R) (ceil lpm : option R) :
  0 <= s -> 0 <= orDefault lpm 0.6 -> ons1 <= ons2 ->
  frac (computeO2Fraction (mkO2Args s ons2 area ceil lpm))
  <= frac (computeO2Fraction (mkO2Args s ons1 area ceil lpm)).
Proof.
  intros Hs Hlpm Hons.
  unfold computeO2Fraction;
    cbn [frac seconds onsite roomArea ceiling perPersonO2Lpm].
  set (v := Rmax 1 (area * orDefault ceil 3) * 1000).
  assert (Hv : 0 < v) by apply volume_pos.
  apply clamp_mono, div_le_mono; [exact Hv |].
  assert (Hc : ons1 * orDefault lpm 0.6 * (s / 60)
               <= ons2 * orDefault lpm 0.6 * (s / 60)).
  { apply Rmult_le_compat_r; [lra |].
    apply Rmult_le_compat_r; assumption. }
  maxmin.
Qed.

Lemma computeO2Fraction_antitone_onsite_witness :
  frac (computeO2Fraction (mkO2Args 600 8 30 None None))
  <= frac (computeO2Fraction (mkO2Args 600 4 30 None None)).
Proof.
  apply (computeO2Fraction_antitone_onsite 600 4 8 30 None None);
    cbn [orDefault]; lra.
Defined.

(** A larger room never lowers the fraction: for a ceiling height, a head
    count and an elapsed time that are not negative, the fraction does not
    decrease with the room area (whatever the consumption rate). *)
Theorem computeO2Fraction_monotone_roomArea
    (s ons area1 area2 : R) (ceil lpm : option R) :
  0 <= s -> 0 <= ons -> 0 <= orDefault ceil 3 -> area1 <= area2 ->
  frac (computeO2Fraction (mkO2Args s ons area1 ceil lpm))
  <= frac (computeO2Fraction (mkO2Args s ons area2 ceil lpm)).
Proof.
  intros Hs Hons Hceil Harea.
  destruct (Rle_dec (ons * orDefault lpm 0.6 * (s / 60)) 0) as [Hc | Hc].
  - rewrite !frac_no_consumption by exact Hc. lra.
  - unfold computeO2Fraction;
      cbn [frac seconds onsite roomArea ceiling perPersonO2Lpm].
    apply clamp_mono.
    assert (Hvol : Rmax 1 (area1 * orDefault ceil 3)
                   <= Rmax 1 (area2 * orDefault ceil 3)).
    { apply Rle_max_compat_l. now apply Rmult_le_compat_r. }
    apply remaining_share_mono; [apply volume_pos | lra | lra].
Qed.

Lemma computeO2Fraction_monotone_roomArea_witness :
  frac (computeO2Fraction (mkO2Args 600 4 10 None None))
  <= frac (computeO2Fraction (mkO2Args 600 4 30 None None)).
Proof.
  apply (computeO2Fraction_monotone_roomArea 600 4 10 30 None None);
    cbn [orDefault]; lra.
Defined.

(** ** Head counts *)

Lemma headcount_clamp (x : R) :
  (exists n : nat, Rmax 0 (floor x) = INR n) /\
  (x < 1 -> Rmax 0 (floor x) = 0) /\
  (1 <= x -> Rmax 0 (floor x) = floor x /\ x - 1 < floor x <= x).
Proof.
  pose proof (Zfloor_bound x) as [Hlo Hhi]. fold (floor x) in Hlo, Hhi.
  split; [| split].
  - destruct (Z_lt_le_dec (Zfloor x) 0) as [Hneg | Hpos].
    + exists 0%nat. apply Rmax_left. unfold floor. cbn [INR].
      apply IZR_le. lia.
    + exists (Z.to_nat (Zfloor x)).
      rewrite INR_IZR_INZ, Z2Nat.id by exact Hpos.
      apply Rmax_right. unfold floor. now apply IZR_le.
  - intros Hx. apply Rmax_left.
    assert (Hz : (Zfloor x < 1)%Z) by (apply lt_IZR; unfold floor in Hlo; lra).
    unfold floor. apply IZR_le. lia.
  - intros Hx.
    assert (Hz : (1 <= Zfloor x)%Z) by (apply Zfloor_lub; lra).
    apply IZR_le in Hz. fold (floor x) in Hz.
    split; [apply Rmax_right; lra | lra].
Qed.

(** Whatever number is typed into the two head count inputs, the counts
    that the component uses are natural numbers: an input below 1
    (negative ones included) counts as 0, and an input from 1 on is
    rounded down. *)
Theorem head_counts_coerced (v : R) (st : State) :
  (exists n : nat, st_onsite (setNumOnsite v st) = INR n) /\
  (exists n : nat, remote (setNumRemote v st) = INR n) /\
  0 <= participants st /\
  (v < 1 -> st_onsite (setNumOnsite v st) = 0 /\
            remote (setNumRemote v st) = 0) /\
  (1 <= v -> st_onsite (setNumOnsite v st) = floor v /\
             remote (setNumRemote v st) = floor v /\
             v - 1 < floor v <= v).
Proof.
  unfold st_onsite, remote, participants; cbn [setNumOnsite setNumRemote numOnsite numRemote].
  destruct (headcount_clamp v) as [Hnat [Hlow Hhigh]].
  split; [exact Hnat |]. split; [exact Hnat |].
  split.
  - unfold st_onsite, remote.
    pose proof (Rmax_l 0 (floor (numOnsite st))).
    pose proof (Rmax_l 0 (floor (numRemote st))). lra.
  - split; intros Hv.
    + split; now apply Hlow.
    + destruct (Hhigh Hv) as [Heq Hb]. repeat split; try exact Heq; apply Hb.
Qed.

Lemma head_counts_coerced_witness :
  st_onsite (setNumOnsite (-3) initialState) = 0 /\
  st_onsite (setNumOnsite 4.7 initialState) = floor 4.7.
Proof.
  split.
  - apply (head_counts_coerced (-3) initialState). lra.
  - apply (head_counts_coerced 4.7 initialState). lra.
Defined.

(** ** The Everest panel *)

Lemma pct_in_range (a : R) : 0 <= a <= 8848 -> pct a = a / 8848.
Proof.
  intros [H0 H1]. unfold pct.
  assert (Hq : 0 <= a / 8848 <= 1).
  { split.
    - apply Rmult_le_pos; lra.
    - replace 1 with (8848 / 8848) by lra. apply div_le_mono; lra. }
  rewrite Rmax_right by lra. apply Rmin_right. lra.
Qed.

Lemma pct_range (a : R) : 0 <= pct a <= 1.
Proof. unfold pct. generalize (a / 8848). intros q. maxmin. Qed.

Lemma markerY_base (a : R) : a <= 0 -> markerY a = 380.
Proof.
  intros Ha. unfold markerY, pct.
  assert (Hq : a / 8848 <= 0).
  { replace 0 with (0 / 8848) by lra. apply div_le_mono; lra. }
  rewrite Rmax_left by exact Hq. rewrite Rmin_right by lra. lra.
Qed.

Lemma markerY_top (a : R) : 8848 <= a -> markerY a = 0.
Proof.
  intros Ha. unfold markerY, pct.
  assert (Hq : 1 <= a / 8848).
  { replace 1 with (8848 / 8848) by lra. apply div_le_mono; lra. }
  rewrite Rmax_right by lra. rewrite Rmin_left by exact Hq. lra.
Qed.

Lemma markerY_linear (a : R) :
  0 <= a <= 8848 -> markerY a = 380 - a * 380 / 8848.
Proof. intros Ha. unfold markerY. rewrite pct_in_range by exact Ha. lra. Qed.

Lemma markerY_antitone (a b : R) : a <= b -> markerY b <= markerY a.
Proof.
  intros Hab. unfold markerY, pct.
  assert (Hq : a / 8848 <= b / 8848) by (apply div_le_mono; lra).
  assert (Hm : Rmin 1 (Rmax 0 (a / 8848)) <= Rmin 1 (Rmax 0 (b / 8848)))
    by now apply clamp_mono.
  lra.
Qed.

(** The marker stays inside the drawing, between the base ([y = 380]) and
    the top ([y = 0]); it sits at the base for an altitude of 0 or below, at
    the top from 8848 m on, moves linearly in between, and never moves down
    when the altitude grows. *)
Theorem markerY_scale (a b : R) :
  0 <= pct a <= 1 /\
  0 <= markerY a <= 380 /\
  (a <= 0 -> markerY a = 380) /\
  (8848 <= a -> markerY a = 0) /\
  (0 <= a <= 8848 -> markerY a = 380 - a * 380 / 8848) /\
  (a <= b -> markerY b <= markerY a).
Proof.
  split; [apply pct_range |].
  split; [unfold markerY; pose proof (pct_range a); lra |].
  split; [apply markerY_base |].
  split; [apply markerY_top |].
  split; [apply markerY_linear | apply markerY_antitone].
Qed.

Lemma markerY_scale_witness :
  markerY (-5) = 380 /\ markerY 9000 = 0 /\
  markerY 4424 = 380 - 4424 * 380 / 8848 /\
  markerY 8000 <= markerY 4424.
Proof.
  destruct (markerY_scale (-5) 0) as [_ [_ [Hbase _]]].
  destruct (markerY_scale 9000 9000) as [_ [_ [_ [Htop _]]]].
  destruct (markerY_scale 4424 8000) as [_ [_ [_ [_ [Hlin Hmono]]]]].
  split; [apply Hbase; lra |].
  split; [apply Htop; lra |].
  split; [apply Hlin; lra | apply Hmono; lra].
Defined.

Lemma round_near (x : R) : x - 0.5 < IZR (round x) <= x + 0.5.
Proof. unfold round. pose proof (Zfloor_bound (x + 0.5)). lra. Qed.

(** The ten altitude ticks lie on the scale of the marker: tick [i] is
    drawn where the marker stands at [i] ninths of 8848 m, and its label is
    that altitude rounded to the nearest metre; the lowest tick is 0 m at
    the base and the highest 8848 m at the top. *)
Theorem ticks_on_marker_scale (i : nat) :
  (i <= 9)%nat ->
  tickY i = markerY (INR i * (8848 / 9)) /\
  INR i * (8848 / 9) - 0.5 < IZR (tickAlt i) <= INR i * (8848 / 9) + 0.5 /\
  tickY 0 = 380 /\ tickAlt 0 = 0%Z /\
  tickY 9 = 0 /\ tickAlt 9 = 8848%Z.
Proof.
  intros Hi.
  assert (Hr : 0 <= INR i <= 9).
  { split; [apply pos_INR |]. apply le_INR in Hi.
    replace 9 with (INR 9) by (cbn; lra). exact Hi. }
  split.
  - rewrite markerY_linear by lra. unfold tickY. lra.
  - split; [apply round_near |].
    assert (H9 : INR 9 = 9) by (cbn; lra).
    unfold tickY, tickAlt, round. rewrite H9. cbn [INR].
    repeat split; try lra; apply Zfloor_eq; lra.
Qed.

Lemma ticks_on_marker_scale_witness :
  tickY 3 = markerY (INR 3 * (8848 / 9)).
Proof. apply (ticks_on_marker_scale 3). lia. Defined.

(** ** The derived displays *)

Lemma step_keeps_params (st : State) (e : Event) :
  isParamEdit e = false ->
  numOnsite (step st e) = numOnsite st /\
  numRemote (step st e) = numRemote st /\
  st_roomArea (step st e) = st_roomArea st /\
  o2Lpm (step st e) = o2Lpm st /\
  hourlyCostPerPerson (step st e) = hourlyCostPerPerson st.
Proof.
  intros He.
  destruct e; try discriminate He; cbn [step];
    try (repeat split; reflexivity).
  - unfold toggleRunning, setIsRunning, timerEffect.
    destruct (Bool.eqb _ _); [now repeat split |].
    now destruct (isRunning (writeIsRunning _ st)).
  - unfold reset, setIsRunning, timerEffect.
    destruct (Bool.eqb _ _); [now repeat split |].
    now destruct (isRunning (writeIsRunning _ st)).
  - destruct (isRunning st); [| now repeat split].
    unfold raf. now destruct (Rle_dec _ _).
  - unfold addNote. now destruct (_ && _).
Qed.

Lemma run_keeps_params (evs : list Event) (st : State) :
  Forall (fun e => isParamEdit e = false) evs ->
  numOnsite (run st evs) = numOnsite st /\
  numRemote (run st evs) = numRemote st /\
  st_roomArea (run st evs) = st_roomArea st /\
  o2Lpm (run st evs) = o2Lpm st /\
  hourlyCostPerPerson (run st evs) = hourlyCostPerPerson st.
Proof.
  revert st. induction evs as [| e evs IH]; intros st Hall;
    [now repeat split |].
  inversion Hall as [| ? ? He Hrest]; subst.
  destruct (IH (step st e) Hrest) as [H1 [H2 [H3 [H4 H5]]]].
  destruct (step_keeps_params st e He) as [G1 [G2 [G3 [G4 G5]]]].
  change (run st (e :: evs)) with (run (step st e) evs).
  rewrite H1, H2, H3, H4, H5. now repeat split.
Qed.

(** As long as nobody resets the clock or edits a parameter, the displays
    only move one way, whatever else happens (frames, pauses, notes): the
    oxygen fraction and percentage never rise, the equivalent altitude
    never falls, the marker never moves down, and, for an hourly cost that
    is not negative, the live cost never falls. *)
Theorem displays_move_one_way (evs evs' : list Event) :
  let st := run initialState evs in
  let st' := run st evs' in
  Forall (fun e => e <> Reset) evs' ->
  Forall (fun e => isParamEdit e = false) evs' ->
  frac (o2 st') <= frac (o2 st) /\
  percent (o2 st') <= percent (o2 st) /\
  eqAlt st <= eqAlt st' /\
  markerY (eqAlt st') <= markerY (eqAlt st) /\
  (0 <= hourlyCostPerPerson st -> liveCost st <= liveCost st').
Proof.
  intros st st' Hreset Hparams.
  destruct (run_keeps_params evs' st Hparams) as [H1 [H2 [H3 [H4 H5]]]].
  fold st' in H1, H2, H3, H4, H5.
  assert (Hpos : 0 <= elapsed st)
    by (apply run_elapsed_nonneg; cbn; lra).
  assert (Hle : elapsed st <= elapsed st') by now apply run_elapsed_le.
  assert (Hons : 0 <= st_onsite st) by apply Rmax_l.
  assert (Hfrac : frac (o2 st') <= frac (o2 st)).
  { unfold o2, st_onsite. rewrite H1, H3, H4.
    now apply frac_antitone. }
  assert (Halt : eqAlt st <= eqAlt st')
    by (unfold eqAlt; now apply altitude_antitone).
  split; [exact Hfrac |].
  split.
  { pose proof (percent_frac
                  (mkO2Args (elapsed st) (st_onsite st) (st_roomArea st) None
                     (Some (o2Lpm st)))) as Hp.
    pose proof (percent_frac
                  (mkO2Args (elapsed st') (st_onsite st') (st_roomArea st')
                     None (Some (o2Lpm st')))) as Hp'.
    fold (o2 st) in Hp. fold (o2 st') in Hp'. rewrite Hp, Hp'. lra. }
  split; [exact Halt |].
  split.
  { now apply markerY_antitone. }
  intros Hcost.
  unfold liveCost, costPerSecondPerPerson, participants, st_onsite, remote.
  rewrite H1, H2, H5.
  apply Rmult_le_compat_l; [| exact Hle].
  apply Rmult_le_pos.
  - pose proof (Rmax_l 0 (floor (numOnsite st))).
    pose proof (Rmax_l 0 (floor (numRemote st))). lra.
  - apply Rmult_le_pos; lra.
Qed.

Lemma displays_move_one_way_witness :
  let st := run initialState [ToggleRunning; Frame 0] in
  let st' := run st [Frame 1000; AddNote []; ToggleRunning] in
  eqAlt st <= eqAlt st' /\ liveCost st <= liveCost st'.
Proof.
  intros st st'.
  destruct (displays_move_one_way [ToggleRunning; Frame 0]
              [Frame 1000; AddNote []; ToggleRunning])
    as [_ [_ [Halt [_ Hcost]]]];
    [repeat constructor; discriminate | repeat constructor |].
  split; [exact Halt |].
  apply Hcost.
  destruct (run_keeps_params [ToggleRunning; Frame 0] initialState)
    as [_ [_ [_ [_ Hh]]]]; [repeat constructor |].
  change (0 <= hourlyCostPerPerson (run initialState [ToggleRunning; Frame 0])).
  rewrite Hh. cbn [initialState hourlyCostPerPerson]. lra.
Defined.

(** ** Accuracy of the stopwatch *)

Lemma last_cons (ts : list R) (a d : R) : last (a :: ts) d = last ts a.
Proof.
  revert a d. induction ts as [| b r IH]; intros a d; [reflexivity |].
  change (last (a :: b :: r) d) with (last (b :: r) d).
  now rewrite !IH.
Qed.

Lemma last_default (b : R) (r : list R) (d1 d2 : R) :
  last (b :: r) d1 = last (b :: r) d2.
Proof. now rewrite !last_cons. Qed.

Lemma sorted_le_last (ts : list R) (t0 l : R) :
  StronglySorted Rle (t0 :: ts) -> In l (t0 :: ts) -> l <= last ts t0.
Proof.
  revert t0 l. induction ts as [| b r IH]; intros t0 l Hsorted Hin.
  - destruct Hin as [-> | []]. cbn. lra.
  - inversion Hsorted as [| ? ? Htail Hall]; subst.
    rewrite last_cons.
    destruct Hin as [-> | Hin].
    + apply Rle_trans with b.
      * inversion Hall; assumption.
      * apply IH; [exact Htail | now left].
    + now apply IH.
Qed.

Lemma frameTimes_other (e : Event) (evs : list Event) :
  isClockEvent e = false -> frameTimes (e :: evs) = frameTimes evs.
Proof. destruct e; try reflexivity; discriminate. Qed.

(** From a running clock with a last sample [l0]: the time added is the
    distance from [l0] to the new last sample, and the latest frame is less
    than 50 ms after it. *)
Lemma running_from_sample (evs : list Event) :
  forall (st : State) (l0 : R),
    isRunning st = true -> lastTickRef st = Some l0 ->
    Forall (fun e => e <> Reset /\ e <> ToggleRunning) evs ->
    exists l,
      lastTickRef (run st evs) = Some l /\
      elapsed (run st evs) = elapsed st + (l - l0) / 1000 /\
      (l = l0 \/ In l (frameTimes evs)) /\
      (last (frameTimes evs) l0 - l) / 1000 < 0.05.
Proof.
  induction evs as [| e evs IH]; intros st l0 Hrun Hlast Hall.
  - exists l0. cbn. repeat split; try assumption; try lra; try (now left).
  - inversion Hall as [| ? ? [Hreset Htoggle] Hrest]; subst.
    change (run st (e :: evs)) with (run (step st e) evs).
    destruct (isClockEvent e) eqn:Hclock;
      [destruct e; try discriminate Hclock |].
    + contradiction.
    + contradiction.
    + cbn [step frameTimes]. rewrite Hrun.
      destruct (raf_sample now l0 st Hlast) as [[Hdt ->] | [Hdt ->]].
      * destruct (IH (setLastTickRef (Some l0) st) l0 Hrun eq_refl Hrest)
          as [l [K1 [K2 [K3 K4]]]].
        exists l. rewrite K1, K2. cbn [setLastTickRef elapsed].
        split; [reflexivity |]. split; [reflexivity |].
        split; [destruct K3; [now left | right; now right] |].
        rewrite last_cons.
        destruct (frameTimes evs) as [| b r] eqn:Hts.
        -- destruct K3 as [-> | []]. cbn. exact Hdt.
        -- rewrite (last_default b r now l0). exact K4.
      * destruct (IH (setLastTickRef (Some now)
                        (setElapsed (elapsed st + (now - l0) / 1000) st))
                    now Hrun eq_refl Hrest)
          as [l [K1 [K2 [K3 K4]]]].
        exists l. rewrite K1, K2. cbn [setLastTickRef setElapsed elapsed].
        split; [reflexivity |]. split; [lra |].
        split; [right; destruct K3; [now left | now right] |].
        rewrite last_cons. exact K4.
    + destruct (step_other st e Hclock) as [G1 [G2 G3]].
      destruct (IH (step st e) l0 (eq_trans G1 Hrun) (eq_trans G2 Hlast) Hrest)
        as [l [K1 [K2 [K3 K4]]]].
      exists l. rewrite (frameTimes_other e evs Hclock), K2, G3.
      now repeat split.
Qed.

(** From a clock that was just started: nothing is added before the first
    frame, and after it the time added is the distance from the first frame
    to the last sample. *)
Lemma running_from_start (evs : list Event) :
  forall st : State,
    isRunning st = true -> lastTickRef st = None ->
    Forall (fun e => e <> Reset /\ e <> ToggleRunning) evs ->
    match frameTimes evs with
    | [] => elapsed (run st evs) = elapsed st
    | t0 :: ts =>
        exists l,
          lastTickRef (run st evs) = Some l /\
          elapsed (run st evs) = elapsed st + (l - t0) / 1000 /\
          In l (t0 :: ts) /\
          (last ts t0 - l) / 1000 < 0.05
    end.
Proof.
  induction evs as [| e evs IH]; intros st Hrun Hlast Hall; [reflexivity |].
  inversion Hall as [| ? ? [Hreset Htoggle] Hrest]; subst.
  change (run st (e :: evs)) with (run (step st e) evs).
  destruct (isClockEvent e) eqn:Hclock;
    [destruct e; try discriminate Hclock |].
  - contradiction.
  - contradiction.
  - cbn [step frameTimes]. rewrite Hrun, (raf_baseline now st Hlast).
    destruct (running_from_sample evs (setLastTickRef (Some now) st) now
                Hrun eq_refl Hrest) as [l [K1 [K2 [K3 K4]]]].
    exists l. rewrite K1, K2. cbn [setLastTickRef elapsed].
    split; [reflexivity |]. split; [reflexivity |].
    split; [destruct K3; [now left | now right] | exact K4].
  - destruct (step_other st e Hclock) as [G1 [G2 G3]].
    specialize (IH (step st e) (eq_trans G1 Hrun) (eq_trans G2 Hlast) Hrest).
    rewrite (frameTimes_other e evs Hclock). rewrite G3 in IH. exact IH.
Qed.

(** Over one running period the stopwatch is accurate to 50 ms.  Start a
    stopped clock and let any events but Reset and Pause follow, with the
    frames sampled at non-decreasing wall-clock times [t0], ..., [tn]: the
    time added to [elapsed] is at most the wall-clock time [tn - t0]
    between the first and the last frame, and falls short of it by less
    than 50 ms, however the frames are spaced. *)
Theorem stopwatch_accuracy (evs evs' : list Event) (t0 : R) (ts : list R) :
  let st := run initialState evs in
  let st' := run st (ToggleRunning :: evs') in
  isRunning st = false ->
  Forall (fun e => e <> Reset /\ e <> ToggleRunning) evs' ->
  frameTimes evs' = t0 :: ts ->
  Sorted Rle (t0 :: ts) ->
  (last ts t0 - t0) / 1000 - 0.05 < elapsed st' - elapsed st
  /\ elapsed st' - elapsed st <= (last ts t0 - t0) / 1000.
Proof.
  intros st st' Hstop Hall Htimes Hsorted.
  assert (Hinv : stoppedClean st)
    by (apply run_stoppedClean, initial_stoppedClean).
  assert (Hstart : isRunning (step st ToggleRunning) = true).
  { cbn [step]. unfold toggleRunning.
    now rewrite setIsRunning_isRunning, Hstop. }
  assert (Hnone : lastTickRef (step st ToggleRunning) = None).
  { cbn [step]. unfold toggleRunning, setIsRunning. rewrite Hstop. cbn.
    exact (Hinv Hstop). }
  assert (Hsame : elapsed (step st ToggleRunning) = elapsed st)
    by apply setIsRunning_elapsed.
  pose proof (running_from_start evs' (step st ToggleRunning)
                Hstart Hnone Hall) as Hacc.
  rewrite Htimes in Hacc. destruct Hacc as [l [_ [Hel [Hin Hlate]]]].
  change (run (step st ToggleRunning) evs') with st' in Hel.
  rewrite Hsame in Hel.
  assert (Hle : l <= last ts t0).
  { apply sorted_le_last; [| exact Hin].
    apply Sorted_StronglySorted; [| exact Hsorted].
    intros x y z. apply Rle_trans. }
  rewrite Hel. split; lra.
Qed.

Lemma stopwatch_accuracy_witness :
  let st' := run initialState
               [ToggleRunning; Frame 0; Frame 30; SetTopic []; Frame 60;
                Frame 100] in
  (100 - 0) / 1000 - 0.05 < elapsed st' - elapsed initialState /\
  elapsed st' - elapsed initialState <= (100 - 0) / 1000.
Proof.
  apply (stopwatch_accuracy []
           [Frame 0; Frame 30; SetTopic []; Frame 60; Frame 100]
           0 [30; 60; 100]).
  - reflexivity.
  - repeat constructor; discriminate.
  - reflexivity.
  - repeat constructor; lra.
Defined.

(** ** The button and the separation of the timer from the rest *)

Lemma labels_distinct :
  JsString.lit "Pause" <> JsString.lit "Start" /\
  JsString.lit "Pause" <> JsString.lit "Resume" /\
  JsString.lit "Start" <> JsString.lit "Resume".
Proof. repeat split; intros H; vm_compute in H; discriminate H. Qed.

(** In every state the component reaches, the button reads Pause exactly
    while the clock runs, Start exactly when the clock is stopped at 0 (after
    a start and a pause with no counted time too), and Resume exactly when
    it is stopped with time on it. *)
Theorem buttonLabel_cases (evs : list Event) :
  let st := run initialState evs in
  (buttonLabel st = JsString.lit "Pause" <-> isRunning st = true) /\
  (buttonLabel st = JsString.lit "Start" <->
   isRunning st = false /\ elapsed st = 0) /\
  (buttonLabel st = JsString.lit "Resume" <->
   isRunning st = false /\ 0 < elapsed st).
Proof.
  intros st.
  assert (Hpos : 0 <= elapsed st) by (apply run_elapsed_nonneg; cbn; lra).
  destruct labels_distinct as [D1 [D2 D3]].
  unfold buttonLabel.
  destruct (isRunning st); [| destruct (Rlt_dec 0 (elapsed st))];
    (split; [| split]); (split; intros Hx);
    try reflexivity; try congruence;
    try (split; [reflexivity | lra]);
    destruct Hx as [Hy Hz]; first [discriminate Hy | lra].
Qed.

(** The timer and the rest of the component never write each other's
    state: Start, Pause, Reset and the frames leave the parameters, the
    currency, the drafts and the notes as they are; every other event
    leaves the running flag, the elapsed time and the last sample as they
    are. *)
Theorem timer_separation (st : State) (e : Event) :
  (isClockEvent e = true ->
   numOnsite (step st e) = numOnsite st /\
   numRemote (step st e) = numRemote st /\
   st_roomArea (step st e) = st_roomArea st /\
   hourlyCostPerPerson (step st e) = hourlyCostPerPerson st /\
   currency (step st e) = currency st /\
   o2Lpm (step st e) = o2Lpm st /\
   topic (step st e) = topic st /\
   note (step st e) = note st /\
   notes (step st e) = notes st) /\
  (isClockEvent e = false ->
   isRunning (step st e) = isRunning st /\
   elapsed (step st e) = elapsed st /\
   lastTickRef (step st e) = lastTickRef st).
Proof.
  split; intros He.
  - destruct e; try discriminate He; cbn [step].
    + unfold toggleRunning, setIsRunning, timerEffect.
      destruct (Bool.eqb _ _); [now repeat split |].
      now destruct (isRunning (writeIsRunning _ st)).
    + unfold reset, setIsRunning, timerEffect.
      destruct (Bool.eqb _ _); [now repeat split |].
      now destruct (isRunning (writeIsRunning _ st)).
    + destruct (isRunning st); [| now repeat split].
      unfold raf. now destruct (Rle_dec _ _).
  - destruct (step_other st e He) as [H1 [H2 H3]]. now repeat split.
Qed.

Lemma timer_separation_witness :
  notes (step initialState (Frame 100)) = notes initialState /\
  elapsed (step initialState (AddNote [])) = elapsed initialState.
Proof.
  split.
  - apply (timer_separation initialState (Frame 100)). reflexivity.
  - apply (timer_separation initialState (AddNote [])). reflexivity.
Defined.

(** ** The currency code *)

(** The currency code is never the empty string: clearing the input falls
    back to CHF. *)
Theorem currency_never_empty (evs : list Event) :
  currency (run initialState evs) <> [] /\
  currency (step (run initialState evs) (SetCurrency []))
  = JsString.lit "CHF".
Proof.
  split; [| reflexivity].
  assert (H : forall st, currency st <> [] -> currency (run st evs) <> []).
  { induction evs as [| e evs IH]; intros st Hne; [exact Hne |].
    apply IH.
    destruct e; cbn [step]; try exact Hne.
    - cbn [setCurrency currency]. apply or_nonempty. discriminate.
    - unfold toggleRunning, setIsRunning, timerEffect.
      destruct (Bool.eqb _ _); [exact Hne |].
      now destruct (isRunning (writeIsRunning _ st)).
    - unfold reset, setIsRunning, timerEffect.
      destruct (Bool.eqb _ _); [exact Hne |].
      now destruct (isRunning (writeIsRunning _ st)).
    - destruct (isRunning st); [| exact Hne].
      unfold raf. now destruct (Rle_dec _ _).
    - unfold addNote. now destruct (_ && _). }
  apply H. discriminate.
Qed.

(** ** The note log over a whole session *)

(** What one event does to the log: nothing, empty it, or put one note in
    front. *)
Lemma step_notes (st : State) (e : Event) :
  notes (step st e) = notes st \/
  (e = ClearNotes /\ notes (step st e) = []) \/
  (exists newId,
     e = AddNote newId /\
     notes (step st e)
     = mkNote newId (elapsed st)
         (JsString.or (JsString.trim (topic st)) untitled)
         (JsString.trim (note st)) :: notes st).
Proof.
  destruct e; cbn [step]; try (left; reflexivity).
  - left. unfold toggleRunning, setIsRunning, timerEffect.
    destruct (Bool.eqb _ _); [reflexivity |].
    now destruct (isRunning (writeIsRunning _ st)).
  - left. unfold reset, setIsRunning, timerEffect.
    destruct (Bool.eqb _ _); [reflexivity |].
    now destruct (isRunning (writeIsRunning _ st)).
  - left. destruct (isRunning st); [| reflexivity].
    unfold raf. now destruct (Rle_dec _ _).
  - unfold addNote. destruct (_ && _); [now left |].
    right. right. exists newId. split; reflexivity.
  - right. left. split; reflexivity.
Qed.

Lemma ids_unique_from (evs : list Event) :
  forall st : State,
    NoDup (map id (notes st)) ->
    (forall i, In i (addedIds evs) -> ~ In i (map id (notes st))) ->
    NoDup (addedIds evs) ->
    NoDup (map id (notes (run st evs))).
Proof.
  induction evs as [| e evs IH]; intros st Hdup Hfresh Hnew; [exact Hdup |].
  change (run st (e :: evs)) with (run (step st e) evs).
  destruct (step_notes st e) as [Hsame | [[-> Hclear] | [newId [-> Hadd]]]].
  - assert (Hids : addedIds (e :: evs) = addedIds evs \/
                   exists i, addedIds (e :: evs) = i :: addedIds evs).
    { destruct e; try (left; reflexivity). right. now eexists. }
    apply IH; rewrite ?Hsame; [exact Hdup | |].
    + intros i Hi. apply Hfresh.
      destruct Hids as [-> | [j ->]]; [exact Hi | now right].
    + destruct Hids as [Heq | [j Heq]]; rewrite Heq in Hnew;
        [exact Hnew | now inversion Hnew].
  - apply IH; rewrite ?Hclear; [constructor | intros i _ [] | exact Hnew].
  - cbn [addedIds] in Hfresh, Hnew. inversion Hnew as [| ? ? Hnotin Hrest]; subst.
    apply IH; rewrite ?Hadd; cbn [map id].
    + constructor; [apply Hfresh; now left | exact Hdup].
    + intros i Hi [<- | Hin]; [contradiction |].
      apply (Hfresh i); [now right | exact Hin].
    + exact Hrest.
Qed.

(** When [uuid()] never returns the same identifier twice in a session, no
    two notes of the log share an identifier, at any point of the session:
    the [key] of each rendered note is unique. *)
Theorem notes_ids_unique (evs : list Event) :
  NoDup (addedIds evs) -> NoDup (map id (notes (run initialState evs))).
Proof.
  intros Hnew. apply ids_unique_from; [constructor | | exact Hnew].
  intros i _ [].
Qed.

Lemma notes_ids_unique_witness :
  NoDup (map id (notes (run initialState
                          [SetTopic (JsString.lit "a"); AddNote (JsString.lit "1");
                           ToggleRunning; AddNote (JsString.lit "2")]))).
Proof.
  apply (notes_ids_unique
           [SetTopic (JsString.lit "a"); AddNote (JsString.lit "1");
            ToggleRunning; AddNote (JsString.lit "2")]).
  cbn [addedIds]. constructor.
  - intros [H | []]. vm_compute in H. discriminate H.
  - constructor; [intros [] | constructor].
Defined.

Lemma timestamps_from (evs : list Event) :
  forall st : State,
    0 <= elapsed st ->
    Forall (fun n => 0 <= ts n <= elapsed st) (notes st) ->
    StronglySorted (fun a b => ts b <= ts a) (notes st) ->
    Forall (fun e => e <> Reset) evs ->
    Forall (fun n => 0 <= ts n <= elapsed (run st evs)) (notes (run st evs)) /\
    StronglySorted (fun a b => ts b <= ts a) (notes (run st evs)).
Proof.
  induction evs as [| e evs IH]; intros st Hpos Hbound Hsorted Hall;
    [now split |].
  inversion Hall as [| ? ? He Hrest]; subst.
  change (run st (e :: evs)) with (run (step st e) evs).
  pose proof (step_elapsed_le st e He) as Hle.
  assert (Hweak : Forall (fun n => 0 <= ts n <= elapsed (step st e)) (notes st)).
  { eapply Forall_impl; [| exact Hbound]. cbn. intros n Hn. lra. }
  destruct (step_notes st e) as [Hsame | [[-> Hclear] | [newId [-> Hadd]]]].
  - apply IH; rewrite ?Hsame; [lra | exact Hweak | exact Hsorted | exact Hrest].
  - apply IH; rewrite ?Hclear; [lra | constructor | constructor | exact Hrest].
  - apply IH; rewrite ?Hadd; [lra | | | exact Hrest].
    + constructor; [cbn [ts]; lra | exact Hweak].
    + constructor; [exact Hsorted |].
      eapply Forall_impl; [| exact Hbound]. cbn. intros n Hn. lra.
Qed.

(** In a session without Reset the log is in time order, newest first:
    every note carries a time stamp that is at least the stamp of each note
    below it, not negative and at most the current elapsed time. *)
Theorem notes_newest_first (evs : list Event) :
  Forall (fun e => e <> Reset) evs ->
  let st := run initialState evs in
  Forall (fun n => 0 <= ts n <= elapsed st) (notes st) /\
  StronglySorted (fun a b => ts b <= ts a) (notes st).
Proof.
  intros Hall st.
  apply timestamps_from; [cbn; lra | constructor | constructor | exact Hall].
Qed.

Lemma notes_newest_first_witness :
  let st := run initialState
              [SetTopic (JsString.lit "a"); AddNote []; ToggleRunning;
               Frame 0; Frame 100; AddNote []] in
  Forall (fun n => 0 <= ts n <= elapsed st) (notes st) /\
  StronglySorted (fun a b => ts b <= ts a) (notes st).
Proof.
  apply (notes_newest_first
           [SetTopic (JsString.lit "a"); AddNote []; ToggleRunning;
            Frame 0; Frame 100; AddNote []]).
  repeat constructor; discriminate.
Defined.

Lemma trimStart_id (u : JsString.t) :
  match u with
  | [] => True
  | c :: _ => JsString.isWhiteSpace c = false
  end ->
  JsString.trimStart u = u.
Proof. destruct u as [| c u]; [reflexivity |]. cbn. now intros ->. Qed.

Lemma trimEnd_id (u : JsString.t) :
  match rev u with
  | [] => True
  | c :: _ => JsString.isWhiteSpace c = false
  end ->
  JsString.trimEnd u = u.
Proof.
  intros H. unfold JsString.trimEnd.
  rewrite trimStart_id by exact H. apply rev_involutive.
Qed.

Lemma trim_idempotent (s : JsString.t) :
  JsString.trim (JsString.trim s) = JsString.trim s.
Proof.
  destruct (trim_spec s) as [l [r [_ [_ [_ [Hhead Hlast]]]]]].
  unfold JsString.trim at 1.
  rewrite trimStart_id by exact Hhead. now apply trimEnd_id.
Qed.

Lemma trim_blank_iff (s : JsString.t) :
  JsString.trim s = [] <-> forallb JsString.isWhiteSpace s = true.
Proof.
  split.
  - intros Hempty.
    destruct (trim_spec s) as [l [r [Heq [Hl [Hr _]]]]].
    rewrite Hempty in Heq. cbn in Heq. rewrite Heq.
    apply forallb_forall. intros c Hin.
    apply in_app_or in Hin. rewrite Forall_forall in Hl, Hr.
    destruct Hin; auto.
  - intros Hall. unfold JsString.trim.
    assert (Hstart : JsString.trimStart s = []).
    { induction s as [| c s IH]; [reflexivity |].
      cbn in Hall |- *. apply andb_prop in Hall. destruct Hall as [-> Hs].
      now apply IH. }
    now rewrite Hstart.
Qed.

(** Every note of the log is stored trimmed, at any point of a session:
    trimming its topic or its text again changes nothing, so neither starts
    or ends with white space. *)
Theorem notes_stored_trimmed (evs : list Event) :
  Forall (fun n => JsString.trim (note_topic n) = note_topic n /\
                   JsString.trim (text n) = text n)
         (notes (run initialState evs)).
Proof.
  assert (H : forall st,
             Forall (fun n => JsString.trim (note_topic n) = note_topic n /\
                              JsString.trim (text n) = text n) (notes st) ->
             Forall (fun n => JsString.trim (note_topic n) = note_topic n /\
                              JsString.trim (text n) = text n)
                    (notes (run st evs))).
  { induction evs as [| e evs IH]; intros st Hall; [exact Hall |].
    apply IH.
    destruct (step_notes st e) as [-> | [[_ ->] | [newId [_ ->]]]];
      [exact Hall | constructor |].
    constructor; [| exact Hall]. cbn [note_topic text].
    split; [| apply trim_idempotent].
    rewrite or_match.
    destruct (JsString.trim (topic st)) as [| c t] eqn:Ht;
      [reflexivity |].
    rewrite <- Ht. apply trim_idempotent. }
  apply H. constructor.
Qed.

(** Add note clears the note draft and keeps the topic draft.  So a second
    press right after the first does nothing when the topic draft is blank
    (white space only), and otherwise logs the same topic again with an
    empty text. *)
Theorem addNote_twice (id1 id2 : JsString.t) (st : State) :
  (forallb JsString.isWhiteSpace (topic st) = true ->
   addNote id2 (addNote id1 st) = addNote id1 st) /\
  (forallb JsString.isWhiteSpace (topic st) = false ->
   notes (addNote id2 (addNote id1 st))
   = mkNote id2 (elapsed st) (JsString.trim (topic st)) []
     :: mkNote id1 (elapsed st) (JsString.trim (topic st))
          (JsString.trim (note st))
     :: notes st).
Proof.
  split; intros Htopic.
  - apply trim_blank_iff in Htopic.
    destruct (JsString.trim (note st)) as [| d n] eqn:Hn.
    + rewrite (addNote_noop id1 st) by assumption.
      apply addNote_noop; assumption.
    + rewrite (addNote_prepends id1 st) by (right; rewrite Hn; discriminate).
      apply addNote_noop; cbn [setNote setNotes topic note];
        [exact Htopic | reflexivity].
  - assert (Hne : JsString.trim (topic st) <> []).
    { intros Hempty. apply trim_blank_iff in Hempty. congruence. }
    rewrite (addNote_prepends id1 st) by now left.
    rewrite addNote_prepends
      by (left; cbn [setNote setNotes topic]; exact Hne).
    cbn [setNote setNotes notes topic note elapsed].
    destruct (JsString.trim (topic st)) as [| c t]; [now elim Hne |].
    reflexivity.
Qed.

Lemma addNote_twice_witness :
  let blank := setNote (JsString.lit "decided") (setTopic (JsString.lit "  ") initialState) in
  let titled := setTopic (JsString.lit " Q4 ") initialState in
  addNote (JsString.lit "2") (addNote (JsString.lit "1") blank)
  = addNote (JsString.lit "1") blank /\
  notes (addNote (JsString.lit "2") (addNote (JsString.lit "1") titled))
  = [mkNote (JsString.lit "2") 0 (JsString.lit "Q4") [];
     mkNote (JsString.lit "1") 0 (JsString.lit "Q4") []].
Proof.
  intros blank titled. split.
  - apply (addNote_twice (JsString.lit "1") (JsString.lit "2") blank).
    reflexivity.
  - apply (addNote_twice (JsString.lit "1") (JsString.lit "2") titled).
    reflexivity.
Defined.

(** ** Time formatting *)

Lemma Zfloor_div (x : R) (n : Z) :
  (0 < n)%Z -> Zfloor (x / IZR n) = (Zfloor x / n)%Z.
Proof.
  intros Hn.
  pose proof (Zfloor_bound x) as [Hlo Hhi].
  assert (HnR : 0 < IZR n) by now apply IZR_lt.
  pose proof (Z.div_mod (Zfloor x) n ltac:(lia)) as Hdm.
  pose proof (Z.mod_pos_bound (Zfloor x) n Hn) as [Hm0 Hm1].
  set (q := (Zfloor x / n)%Z) in *. set (m := (Zfloor x mod n)%Z) in *.
  assert (HF : IZR (Zfloor x) = IZR n * IZR q + IZR m)
    by (rewrite Hdm at 1; now rewrite plus_IZR, mult_IZR).
  assert (Hm0R : 0 <= IZR m) by now apply IZR_le.
  assert (Hm1R : IZR m + 1 <= IZR n).
  { rewrite <- plus_IZR. apply IZR_le. lia. }
  apply Zfloor_eq. split.
  - apply div_ge_bound; [exact HnR | lra].
  - replace (IZR q + 1) with ((IZR n * IZR q + IZR n) / IZR n) by (field; lra).
    unfold Rdiv. apply Rmult_lt_compat_r; [now apply Rinv_0_lt_compat | lra].
Qed.

Lemma Zfloor_nonneg (x : R) : 0 <= x -> (0 <= Zfloor x)%Z.
Proof. intros Hx. apply Zfloor_lub. exact Hx. Qed.

Lemma trunc_nonneg (x : R) : 0 <= x -> trunc x = Zfloor x.
Proof. intros Hx. unfold trunc. destruct (Rle_dec 0 x); [reflexivity | lra]. Qed.

Lemma jsRem_nonneg (s : R) (n : Z) :
  0 <= s -> (0 < n)%Z -> jsRem s (IZR n) = s - IZR (n * (Zfloor s / n)).
Proof.
  intros Hs Hn. unfold jsRem.
  assert (HnR : 0 < IZR n) by now apply IZR_lt.
  rewrite trunc_nonneg.
  - now rewrite Zfloor_div, mult_IZR.
  - apply Rmult_le_pos; [exact Hs | left; now apply Rinv_0_lt_compat].
Qed.

Lemma Zfloor_minus_IZR (x : R) (z : Z) : Zfloor (x - IZR z) = (Zfloor x - z)%Z.
Proof.
  replace (x - IZR z) with (x + IZR (- z)) by (rewrite opp_IZR; ring).
  rewrite Zfloor_addz. lia.
Qed.

(** The three fields of [fmtTime] for a time that is not negative, in
    whole seconds [Zfloor s]. *)
Lemma fmtTime_fields (s : R) :
  0 <= s ->
  Zfloor (s / 3600) = (Zfloor s / 3600)%Z /\
  Zfloor (jsRem s 3600 / 60) = ((Zfloor s / 60) mod 60)%Z /\
  Zfloor (jsRem s 60) = (Zfloor s mod 60)%Z.
Proof.
  intros Hs.
  split; [apply (Zfloor_div s 3600); lia |].
  split.
  - rewrite (jsRem_nonneg s 3600) by (assumption || lia).
    replace ((s - IZR (3600 * (Zfloor s / 3600))) / 60)
      with (s / 60 - IZR (60 * (Zfloor s / 3600))).
    + rewrite Zfloor_minus_IZR, (Zfloor_div s 60) by lia.
      Z.div_mod_to_equations. lia.
    + rewrite !mult_IZR. field.
  - rewrite (jsRem_nonneg s 60) by (assumption || lia).
    rewrite Zfloor_minus_IZR.
    Z.div_mod_to_equations. lia.
Qed.

Lemma sameString_eq (a b : JsString.t) : sameString a b = true -> a = b.
Proof.
  unfold sameString. destruct (list_eq_dec N.eq_dec a b); [trivial | discriminate].
Qed.

Lemma pad2_below_100_check (ef : Z -> JsString.t) :
  forallb
    (fun n => sameString
                (JsString.padStart 2 (JsString.lit "0")
                   (numberToString ef (Z.of_nat n)))
                (twoDigits (Z.of_nat n)))
    (seq 0 100) = true.
Proof. vm_compute. reflexivity. Qed.

(** A field from 0 to 99 is printed with exactly two digits. *)
Lemma pad2_below_100 (ef : Z -> JsString.t) (z : Z) :
  (0 <= z < 100)%Z ->
  JsString.padStart 2 (JsString.lit "0") (numberToString ef z) = twoDigits z.
Proof.
  intros Hz.
  pose proof (pad2_below_100_check ef) as Hall.
  rewrite forallb_forall in Hall.
  specialize (Hall (Z.to_nat z)).
  rewrite Z2Nat.id in Hall by lia.
  apply sameString_eq, Hall, in_seq. lia.
Qed.

Lemma twoDigits_inj (z1 z2 : Z) :
  (0 <= z1 < 100)%Z -> (0 <= z2 < 100)%Z ->
  twoDigits z1 = twoDigits z2 -> z1 = z2.
Proof.
  intros H1 H2 Heq. unfold twoDigits in Heq.
  injection Heq as Htens Hunits.
  assert (Ht : (48 + z1 / 10 = 48 + z2 / 10)%Z).
  { apply Z2N.inj; [| | exact Htens]; Z.div_mod_to_equations; lia. }
  assert (Hu : (48 + z1 mod 10 = 48 + z2 mod 10)%Z).
  { apply Z2N.inj; [| | exact Hunits]; Z.div_mod_to_equations; lia. }
  clear Htens Hunits. Z.div_mod_to_equations. lia.
Qed.

Lemma fmtTime_form (ef : Z -> JsString.t) (s : R) :
  0 <= s ->
  fmtTime ef s
  = JsString.padStart 2 (JsString.lit "0")
      (numberToString ef (Zfloor s / 3600))
    ++ JsString.lit ":" ++ twoDigits ((Zfloor s / 60) mod 60)
    ++ JsString.lit ":" ++ twoDigits (Zfloor s mod 60).
Proof.
  intros Hs.
  destruct (fmtTime_fields s Hs) as [Hh [Hm Hsec]].
  unfold fmtTime. rewrite Hh, Hm, Hsec. cbn [map JsString.join].
  rewrite (pad2_below_100 ef ((Zfloor s / 60) mod 60))
    by (pose proof (Z.mod_pos_bound (Zfloor s / 60) 60); lia).
  rewrite (pad2_below_100 ef (Zfloor s mod 60))
    by (pose proof (Z.mod_pos_bound (Zfloor s) 60); lia).
  reflexivity.
Qed.

Lemma fmtTime_form_100h (ef : Z -> JsString.t) (s : R) :
  0 <= s < 360000 ->
  fmtTime ef s
  = twoDigits (Zfloor s / 3600)
    ++ JsString.lit ":" ++ twoDigits ((Zfloor s / 60) mod 60)
    ++ JsString.lit ":" ++ twoDigits (Zfloor s mod 60).
Proof.
  intros [Hs Hlt].
  assert (Hhours : (0 <= Zfloor s / 3600 < 100)%Z).
  { pose proof (Zfloor_nonneg s Hs) as H0.
    assert (H1 : (Zfloor s < 360000)%Z).
    { apply lt_IZR. pose proof (Zfloor_bound s). lra. }
    Z.div_mod_to_equations. lia. }
  rewrite fmtTime_form, pad2_below_100 by assumption.
  reflexivity.
Qed.

(** [fmtTime] shows whole seconds as a clock.  For a time that is not
    negative, with [F] its whole seconds: the hours field is [F / 3600]
    padded to at least two characters (never cut), the minutes and seconds
    fields are the two digits of [(F / 60) mod 60] and of [F mod 60].
    Below 100 hours the result is exactly [HH:MM:SS], 8 characters. *)
Theorem fmtTime_clock (ef : Z -> JsString.t) (s : R) :
  0 <= s ->
  fmtTime ef s
  = JsString.padStart 2 (JsString.lit "0")
      (numberToString ef (Zfloor s / 3600))
    ++ JsString.lit ":" ++ twoDigits ((Zfloor s / 60) mod 60)
    ++ JsString.lit ":" ++ twoDigits (Zfloor s mod 60) /\
  (s < 360000 ->
   fmtTime ef s
   = twoDigits (Zfloor s / 3600)
     ++ JsString.lit ":" ++ twoDigits ((Zfloor s / 60) mod 60)
     ++ JsString.lit ":" ++ twoDigits (Zfloor s mod 60) /\
   List.length (fmtTime ef s) = 8%nat).
Proof.
  intros Hs.
  split; [now apply fmtTime_form |].
  intros Hlt. rewrite fmtTime_form_100h by (split; assumption).
  split; reflexivity.
Qed.

Lemma fmtTime_clock_witness :
  fmtTime (fun _ => []) 3725.4 = JsString.lit "01:02:05".
Proof.
  destruct (fmtTime_clock (fun _ => []) 3725.4) as [_ Hclock]; [lra |].
  destruct Hclock as [-> _]; [lra |].
  assert (HF : Zfloor 3725.4 = 3725%Z) by (apply Zfloor_eq; lra).
  rewrite HF. reflexivity.
Defined.

Lemma clock_string_inj (a b c d e f a' b' c' d' e' f' : N) :
  [a; b] ++ JsString.lit ":" ++ [c; d] ++ JsString.lit ":" ++ [e; f]
  = [a'; b'] ++ JsString.lit ":" ++ [c'; d'] ++ JsString.lit ":" ++ [e'; f'] ->
  [a; b] = [a'; b'] /\ [c; d] = [c'; d'] /\ [e; f] = [e'; f'].
Proof. intros H. injection H as -> -> -> -> -> ->. now repeat split. Qed.

(** Below 100 hours two times are shown alike exactly when they have the
    same whole seconds: the display loses the fraction of a second and
    nothing else. *)
Theorem fmtTime_same_iff_same_second (ef : Z -> JsString.t) (s1 s2 : R) :
  0 <= s1 < 360000 -> 0 <= s2 < 360000 ->
  (fmtTime ef s1 = fmtTime ef s2 <-> Zfloor s1 = Zfloor s2).
Proof.
  intros [H1 H1'] [H2 H2'].
  rewrite (fmtTime_form_100h ef s1), (fmtTime_form_100h ef s2)
    by (split; assumption).
  split; [| now intros ->].
  assert (B1 : (0 <= Zfloor s1 < 360000)%Z).
  { split; [now apply Zfloor_nonneg |].
    apply lt_IZR. pose proof (Zfloor_bound s1). lra. }
  assert (B2 : (0 <= Zfloor s2 < 360000)%Z).
  { split; [now apply Zfloor_nonneg |].
    apply lt_IZR. pose proof (Zfloor_bound s2). lra. }
  intros Heq.
  apply clock_string_inj in Heq. destruct Heq as [E1 [E2 E3]].
  assert (Hh : (Zfloor s1 / 3600 = Zfloor s2 / 3600)%Z)
    by (apply twoDigits_inj; [Z.div_mod_to_equations; lia ..| exact E1]).
  assert (Hm : ((Zfloor s1 / 60) mod 60 = (Zfloor s2 / 60) mod 60)%Z)
    by (apply twoDigits_inj; [Z.div_mod_to_equations; lia ..| exact E2]).
  assert (Hsec : (Zfloor s1 mod 60 = Zfloor s2 mod 60)%Z)
    by (apply twoDigits_inj; [Z.div_mod_to_equations; lia ..| exact E3]).
  clear E1 E2 E3. Z.div_mod_to_equations. lia.
Qed.

Lemma fmtTime_same_iff_same_second_witness :
  fmtTime (fun _ => []) 59.2 = fmtTime (fun _ => []) 59.9.
Proof.
  apply (fmtTime_same_iff_same_second (fun _ => []) 59.2 59.9); try lra.
  assert (H1 : Zfloor 59.2 = 59%Z) by (apply Zfloor_eq; lra).
  assert (H2 : Zfloor 59.9 = 59%Z) by (apply Zfloor_eq; lra).
  now rewrite H1, H2.
Defined.

Lemma timestamps_nonneg (evs : list Event) :
  forall st : State,
    0 <= elapsed st -> Forall (fun n => 0 <= ts n) (notes st) ->
    0 <= elapsed (run st evs) /\
    Forall (fun n => 0 <= ts n) (notes (run st evs)).
Proof.
  induction evs as [| e evs IH]; intros st Hpos Hall; [now split |].
  change (run st (e :: evs)) with (run (step st e) evs).
  assert (Hpos' : 0 <= elapsed (step st e))
    by (apply (run_elapsed_nonneg [e] st Hpos)).
  apply IH; [exact Hpos' |].
  destruct (step_notes st e) as [-> | [[_ ->] | [newId [_ ->]]]];
    [exact Hall | constructor | now constructor].
Qed.

(** Every time the component hands to [fmtTime], the elapsed time and the
    time stamp of each note, is not negative, whatever the session; so
    every time on screen is a clock of its whole seconds. *)
Theorem displayed_times_are_clocks (ef : Z -> JsString.t) (evs : list Event) :
  let st := run initialState evs in
  0 <= elapsed st /\
  fmtTime ef (elapsed st) = clock ef (Zfloor (elapsed st)) /\
  Forall (fun n => 0 <= ts n /\ fmtTime ef (ts n) = clock ef (Zfloor (ts n)))
         (notes st).
Proof.
  intros st.
  destruct (timestamps_nonneg evs initialState) as [Hpos Hall];
    [cbn; lra | constructor |].
  fold st in Hpos, Hall.
  split; [exact Hpos |].
  split; [now apply fmtTime_form |].
  eapply Forall_impl; [| exact Hall].
  cbn. intros n Hn. split; [exact Hn | now apply fmtTime_form].
Qed.
